(** * aetherforge: MAVLink v2 telemetry sniffer

    A shallow embedding of the frame decoder [parseFrame], the typed
    decoders [tryHeartbeat] and [tryGlobalPosition], the dispatch that the
    read loop of [main] performs on each received datagram, and the read
    loop itself, together with the earlier single-function decoder
    [parseMAVLinkPacket] of [cmd/sniffer/main.go].

    Go values are modelled as follows: [int] and [uint32] as [Z] (with the
    32-bit wrap-around written out), [uint8] as [Byte.byte], [float64] as
    the primitive binary64 floats, a [[]byte] as a slice header over a
    backing array, and a run-time panic as the [Panic] outcome of a small
    error monad. *)

From Stdlib Require Import ZArith Lia List Bool Strings.Byte Strings.String.
From Stdlib Require Import Floats.PrimFloat Numbers.Cyclic.Int63.Uint63.
Import ListNotations.
Local Open Scope Z_scope.
#[local] Set Warnings "-inexact-float".

(* ------------------------------------------------------------------ *)
(** ** The Go run-time fragment the program relies on *)

Module Go.

(** A computation either returns or panics (index or slice bounds out of
    range). *)
Inductive result (A : Type) : Type :=
| Ret (a : A)
| Panic.
Arguments Ret {A} a.
Arguments Panic {A}.

Definition bind {A B : Type} (m : result A) (k : A -> result B) : result B :=
  match m with
  | Ret a => k a
  | Panic => Panic
  end.

(** A slice header: pointer (backing array and offset), length, capacity. *)
Record slice : Type := mkSlice {
  s_arr : list byte;
  s_off : Z;
  s_len : Z;
  s_cap : Z
}.

Definition len (s : slice) : Z := s_len s.
Definition cap (s : slice) : Z := s_cap s.

(** The nil slice, zero value of [[]byte]. *)
Definition nil_slice : slice := mkSlice [] 0 0 0.

(** [make([]byte, n)] *)
Definition make (n : nat) : slice :=
  mkSlice (repeat x00 n) 0 (Z.of_nat n) (Z.of_nat n).

(** A slice over the whole of a given array. *)
Definition of_list (l : list byte) : slice :=
  mkSlice l 0 (Z.of_nat (List.length l)) (Z.of_nat (List.length l)).

Definition wf_slice (s : slice) : Prop :=
  0 <= s_off s /\ 0 <= s_len s <= s_cap s /\
  s_off s + s_cap s <= Z.of_nat (List.length (s_arr s)).

(** The byte stored [i] places after the slice's pointer. *)
Definition byte_at (s : slice) (i : Z) : byte :=
  nth (Z.to_nat (s_off s + i)) (s_arr s) x00.

(** [s[i]]: panics unless [0 <= i < len(s)]. *)
Definition index (s : slice) (i : Z) : result byte :=
  if (0 <=? i) && (i <? len s) then Ret (byte_at s i) else Panic.

(** [s[lo:hi]]: panics unless [0 <= lo <= hi <= cap(s)]; the result shares
    the backing array. *)
Definition reslice (s : slice) (lo hi : Z) : result slice :=
  if (0 <=? lo) && (lo <=? hi) && (hi <=? cap s)
  then Ret (mkSlice (s_arr s) (s_off s + lo) (hi - lo) (cap s - lo))
  else Panic.

(** The bytes a slice shows, [s[0] .. s[len(s)-1]]. *)
Definition contents (s : slice) : list byte :=
  firstn (Z.to_nat (s_len s)) (skipn (Z.to_nat (s_off s)) (s_arr s)).

(** Conversions [int(b)], [uint32(b)] of a [uint8]. *)
Definition u8 (b : byte) : Z := Z.of_N (Byte.to_N b).

(** [uint32] arithmetic: results are reduced modulo 2^32. *)
Definition wrap32 (z : Z) : Z := z mod 2 ^ 32.
Definition shl32 (x k : Z) : Z := wrap32 (Z.shiftl x k).
Definition or32 (x y : Z) : Z := Z.lor x y.

(** [int32(u)] of a [uint32]: two's complement reinterpretation. *)
Definition int32_of_uint32 (u : Z) : Z :=
  if u <? 2 ^ 31 then u else u - 2 ^ 32.

(** [float64(i)] of an [int32]: exact, every int32 is a binary64 value. *)
Definition float64_of_int32 (i : Z) : float :=
  if i <? 0
  then PrimFloat.opp (PrimFloat.of_uint63 (Uint63.of_Z (- i)))
  else PrimFloat.of_uint63 (Uint63.of_Z i).

End Go.

Import Go.

Notation "x <- m ;; k" := (Go.bind m (fun x => k))
  (at level 61, m at next level, right associativity).
Notation "' p <- m ;; k" :=
  (Go.bind m (fun x => match x with p => k end))
  (at level 61, p pattern, m at next level, right associativity).

(** [binary.LittleEndian.Uint32(b)]: a bounds check on [b[3]], then the four
    bytes combined least significant first. *)
Definition LittleEndian_Uint32 (b : slice) : result Z :=
  _ <- index b 3 ;;
  b0 <- index b 0 ;;
  b1 <- index b 1 ;;
  b2 <- index b 2 ;;
  b3 <- index b 3 ;;
  Ret (or32 (or32 (or32 (u8 b0) (shl32 (u8 b1) 8)) (shl32 (u8 b2) 16))
            (shl32 (u8 b3) 24)).

(* ------------------------------------------------------------------ *)
(** ** Data model *)

Record Heartbeat : Type := mkHeartbeat {
  Type_ : byte;
  Autopilot : byte;
  BaseMode : byte;
  CustomMode : Z;
  SystemStatus : byte
}.

(** [Heartbeat{}] *)
Definition Heartbeat_zero : Heartbeat := mkHeartbeat x00 x00 x00 0 x00.

Record frame : Type := mkFrame {
  Len : Z;
  SysID : byte;
  CompID : byte;
  MsgID : Z;
  Payload : slice
}.

(** [frame{}] *)
Definition frame_zero : frame := mkFrame 0 x00 x00 0 nil_slice.

Definition headerLen : Z := 10.
Definition crcLen : Z := 2.

(* ------------------------------------------------------------------ *)
(** ** The frame decoder *)

Definition parseFrame (buf : slice) (n : Z) : result (frame * bool) :=
  if n <? headerLen + crcLen then Ret (frame_zero, false)
  else
    b0 <- index buf 0 ;;
    if negb (Byte.eqb b0 xfd) then Ret (frame_zero, false)
    else
      b1 <- index buf 1 ;;
      let pl := u8 b1 in
      let total := headerLen + pl + crcLen in
      if n <? total then Ret (frame_zero, false)
      else
        b5 <- index buf 5 ;;
        b6 <- index buf 6 ;;
        b7 <- index buf 7 ;;
        b8 <- index buf 8 ;;
        b9 <- index buf 9 ;;
        p <- reslice buf 10 (10 + pl) ;;
        Ret (mkFrame pl b5 b6
                     (or32 (or32 (u8 b7) (shl32 (u8 b8) 8)) (shl32 (u8 b9) 16))
                     p,
             true).

(* ------------------------------------------------------------------ *)
(** ** The typed decoders *)

Definition tryHeartbeat (f : frame) : result (Heartbeat * bool) :=
  if negb (MsgID f =? 0) && negb (len (Payload f) =? 9)
  then Ret (Heartbeat_zero, false)
  else
    let p := Payload f in
    ty <- index p 4 ;;
    ap <- index p 5 ;;
    bm <- index p 6 ;;
    q <- reslice p 0 4 ;;
    cm <- LittleEndian_Uint32 q ;;
    st <- index p 7 ;;
    Ret (mkHeartbeat ty ap bm cm st, true).

Definition tryGlobalPosition (f : frame)
  : result (float * float * float * bool) :=
  if negb (MsgID f =? 33) || (len (Payload f) <? 28)
  then Ret (0%float, 0%float, 0%float, false)
  else
    let p := Payload f in
    q1 <- reslice p 4 8 ;;
    u1 <- LittleEndian_Uint32 q1 ;;
    let latInt := int32_of_uint32 u1 in
    q2 <- reslice p 8 12 ;;
    u2 <- LittleEndian_Uint32 q2 ;;
    let lonInt := int32_of_uint32 u2 in
    q3 <- reslice p 12 16 ;;
    u3 <- LittleEndian_Uint32 q3 ;;
    let altMM := int32_of_uint32 u3 in
    let lat := PrimFloat.div (float64_of_int32 latInt) 1e7%float in
    let lon := PrimFloat.div (float64_of_int32 lonInt) 1e7%float in
    let alt := PrimFloat.div (float64_of_int32 altMM) 1000%float in
    Ret (lat, lon, alt, true).

(* ------------------------------------------------------------------ *)
(** ** Dispatch and the read loop of [main] *)

(** What the loop prints for a decoded message: the fields of the JSON
    object it marshals. *)
Inductive TelemetryRecord : Type :=
| HEARTBEAT (hb : Heartbeat) (armed : bool)
| GLOBAL_POSITION_INT (lat lon alt_m : float).

(** [(hb.BaseMode & 0x80) != 0] *)
Definition armed (baseMode : byte) : bool :=
  negb (Z.land (u8 baseMode) 0x80 =? 0).

(** The [if ... else if ...] chain applied to a parsed frame: at most one
    record, from the first decoder that reports [ok]. *)
Definition dispatch (f : frame) : result (option TelemetryRecord) :=
  '(hb, ok) <- tryHeartbeat f ;;
  if (ok : bool) then Ret (Some (HEARTBEAT hb (armed (BaseMode hb))))
  else
    '(lat, lon, alt, ok') <- tryGlobalPosition f ;;
    if (ok' : bool) then Ret (Some (GLOBAL_POSITION_INT lat lon alt))
    else Ret None.

(** What the loop does with the [n] bytes just received into [buf]. *)
Definition handleDatagram (buf : slice) (n : Z)
  : result (option TelemetryRecord) :=
  '(f, ok) <- parseFrame buf n ;;
  if (ok : bool) then dispatch f else Ret None.

(** Outcome of one [conn.ReadFromUDP(buf)]: a datagram, a deadline expiry
    (a [net.Error] with [Timeout()]), or any other error such as a closed
    socket. *)
Inductive recv : Type :=
| Datagram (d : list byte)
| Timeout
| Failure.

(** One iteration's inputs: the receive outcome and whether [ctx.Done()] is
    closed when the [select] polls it. *)
Record event : Type := mkEvent {
  ev_recv : recv;
  ev_done : bool
}.

(** The receive stores the datagram at the start of [buf], cut to the
    buffer's length, leaves the rest of the buffer as it was, and reports
    the number of bytes stored. *)
Definition ReadFromUDP (buf : slice) (d : list byte) : slice * Z :=
  let n := Z.min (Z.of_nat (List.length d)) (len buf) in
  let o := Z.to_nat (s_off buf) in
  let k := Z.to_nat n in
  (mkSlice (firstn o (s_arr buf) ++ firstn k d ++ skipn (o + k) (s_arr buf))
           (s_off buf) (s_len buf) (s_cap buf),
   n).

Inductive control : Type :=
| Continue
| Return.

(** The body of the [for] loop: the buffer afterwards, what was printed, and
    whether the loop goes on or the goroutine returns. *)
Definition iteration (buf : slice) (ev : event)
  : result (slice * option TelemetryRecord * control) :=
  match ev_recv ev with
  | Timeout =>
      if ev_done ev then Ret (buf, None, Return) else Ret (buf, None, Continue)
  | Failure =>
      if ev_done ev then Ret (buf, None, Return) else Ret (buf, None, Continue)
  | Datagram d =>
      let '(buf', n) := ReadFromUDP buf d in
      r <- handleDatagram buf' n ;;
      Ret (buf', r, Continue)
  end.

(** How a run of the goroutine over a finite sequence of receive outcomes
    ends: it returned, the process died of a panic, or it is still
    receiving. *)
Inductive ending : Type :=
| Returned
| Crashed
| Receiving.

Fixpoint readLoop (buf : slice) (evs : list event)
  : list TelemetryRecord * ending :=
  match evs with
  | [] => ([], Receiving)
  | ev :: rest =>
      match iteration buf ev with
      | Panic => ([], Crashed)
      | Ret (_, _, Return) => ([], Returned)
      | Ret (buf', r, Continue) =>
          let '(out, e) := readLoop buf' rest in
          (match r with Some x => x :: out | None => out end, e)
      end
  end.

(** The goroutine as [main] starts it: [buf := make([]byte, 2048)]. *)
Definition receiveTask (evs : list event) : list TelemetryRecord * ending :=
  readLoop (make 2048) evs.

(* ------------------------------------------------------------------ *)
(** ** The earlier decoder of [cmd/sniffer/main.go] *)

(** The pair of a Heartbeat pointer and an error: the heartbeat, or the
    message of the error. *)
Definition parseMAVLinkPacket (buf : slice) (n : Z)
  : result (Heartbeat + string) :=
  invalid <- (if n <? 10 then Ret true
              else b0 <- index buf 0 ;; Ret (negb (Byte.eqb b0 xfd))) ;;
  if (invalid : bool) then Ret (inr "not a valid MAVLink v2 packet"%string)
  else
    b1 <- index buf 1 ;;
    let payloadLen := u8 b1 in
    b7 <- index buf 7 ;;
    b8 <- index buf 8 ;;
    b9 <- index buf 9 ;;
    let msgID := or32 (or32 (u8 b7) (shl32 (u8 b8) 8)) (shl32 (u8 b9) 16) in
    if negb (msgID =? 0) || negb (payloadLen =? 9)
    then Ret (inr "not a HEARTBEAT message"%string)
    else if n <? 10 + 9 + 2 then Ret (inr "packet too short"%string)
    else
      payload <- reslice buf 10 (10 + 9) ;;
      ty <- index payload 4 ;;
      ap <- index payload 5 ;;
      bm <- index payload 6 ;;
      q <- reslice payload 0 4 ;;
      cm <- LittleEndian_Uint32 q ;;
      st <- index payload 7 ;;
      Ret (inl (mkHeartbeat ty ap bm cm st)).

(* ------------------------------------------------------------------ *)
(** ** Vocabulary of the specification *)

(** A datagram of length [n]: the first [n] bytes of a receive buffer. *)
Definition datagram (buf : slice) (n : Z) : Prop :=
  wf_slice buf /\ 0 <= n <= len buf.

(** A validated frame: one the frame decoder produced from a datagram. *)
Definition validated (f : frame) : Prop :=
  exists buf n, datagram buf n /\ parseFrame buf n = Ret (f, true).

(** Little-endian reading of four bytes as an unsigned 32-bit number, and
    its signed (two's complement) reading. *)
Definition le_uint32 (b0 b1 b2 b3 : byte) : Z :=
  u8 b0 + 2 ^ 8 * u8 b1 + 2 ^ 16 * u8 b2 + 2 ^ 24 * u8 b3.

Definition le_int32 (b0 b1 b2 b3 : byte) : Z :=
  let u := le_uint32 b0 b1 b2 b3 in
  if u <? 2 ^ 31 then u else u - 2 ^ 32.

(** The scalings of the global position, in binary64 arithmetic: a count of
    1e-7 degrees as degrees, a count of millimetres as metres. *)
Definition degreesOfE7 (i : Z) : float :=
  PrimFloat.div (float64_of_int32 i) 1e7%float.

Definition metersOfMillimeters (i : Z) : float :=
  PrimFloat.div (float64_of_int32 i) 1000%float.

(** Byte [i] of a frame's payload. *)
Definition payloadByte (f : frame) (i : Z) : byte := byte_at (Payload f) i.

(** The rejection reasons the specification names. *)
Inductive rejection : Type :=
| TooShort
| BadMagic
| Incomplete.

Definition declaredLength (buf : slice) : Z := u8 (byte_at buf 1).

(** The contract [decodeFrame] of section 4.1 of the specification, its
    validation sequence and field extraction written after its words; the
    first failing check decides the reason. It is not part of the program:
    [parseFrame] is compared with it. *)
Definition decodeFrame_spec (buf : slice) (n : Z) : frame + rejection :=
  if n <? 10 + 2 then inr TooShort
  else if negb (Byte.eqb (byte_at buf 0) xfd) then inr BadMagic
  else if n <? declaredLength buf + 10 + 2 then inr Incomplete
  else inl (mkFrame (declaredLength buf) (byte_at buf 5) (byte_at buf 6)
                    (Z.lor (Z.lor (u8 (byte_at buf 7))
                                  (Z.shiftl (u8 (byte_at buf 8)) 8))
                           (Z.shiftl (u8 (byte_at buf 9)) 16))
                    (mkSlice (s_arr buf) (s_off buf + 10) (declaredLength buf)
                             (cap buf - 10))).

(** What is left of the specification's outcome in the code's result type
    [(frame, bool)]: every rejection is the zero frame with [false]. *)
Definition forget_reason (r : frame + rejection) : frame * bool :=
  match r with
  | inl f => (f, true)
  | inr _ => (frame_zero, false)
  end.

(** The low eight bits of a number, as a byte. *)
Definition byte_of_Z (z : Z) : byte :=
  match Byte.of_N (Z.to_N (z mod 256)) with
  | Some b => b
  | None => x00
  end.

(** Test vectors. The program has no encoder; frames to decode are built
    after the wire format of section 6 of the specification: marker,
    payload length, three bytes the decoder does not use, system and
    component identifiers, the 24-bit message identifier least significant
    byte first, the payload, and a two-byte trailer. *)
Definition encodeFrame (incompat compat seq sys comp : byte) (msgid : Z)
    (payload : list byte) (crc0 crc1 : byte) : list byte :=
  [xfd; byte_of_Z (Z.of_nat (List.length payload)); incompat; compat; seq;
   sys; comp;
   byte_of_Z msgid; byte_of_Z (Z.shiftr msgid 8); byte_of_Z (Z.shiftr msgid 16)]
  ++ payload ++ [crc0; crc1].

(** The nine-byte heartbeat payload: custom mode least significant byte
    first, vehicle type, autopilot type, base mode, system status, protocol
    version. *)
Definition encodeHeartbeat (customMode : Z) (ty ap bm st ver : byte)
  : list byte :=
  [byte_of_Z customMode; byte_of_Z (Z.shiftr customMode 8);
   byte_of_Z (Z.shiftr customMode 16); byte_of_Z (Z.shiftr customMode 24);
   ty; ap; bm; st; ver].

(** A 32-bit value, signed or unsigned, least significant byte first. *)
Definition encode32 (z : Z) : list byte :=
  [byte_of_Z z; byte_of_Z (Z.shiftr z 8); byte_of_Z (Z.shiftr z 16);
   byte_of_Z (Z.shiftr z 24)].

(** The 28-byte global position payload: time reference, latitude,
    longitude, altitude, then twelve bytes the decoder does not read. *)
Definition encodeGlobalPosition (time lat lon alt : Z) : list byte :=
  encode32 time ++ encode32 lat ++ encode32 lon ++ encode32 alt
  ++ repeat x00 12.

(** *** Sample datagrams *)

(** The synthetic heartbeat of the round-trip property, from system 1,
    component 1. *)
Definition heartbeatDatagram : list byte :=
  encodeFrame x00 x00 x00 x01 x01 0
    (encodeHeartbeat 0x01020304 x02 x03 x80 x04 x03) x00 x00.

(** A frame with the unknown message identifier 42 and a nine-byte
    payload. *)
Definition unknownIdDatagram : list byte :=
  encodeFrame x00 x00 x00 x01 x01 42
    [x11; x22; x33; x44; x55; x66; x77; x88; x99] x00 x00.

(** A frame with message identifier 0 and an empty payload: twelve bytes. *)
Definition emptyHeartbeatDatagram : list byte :=
  encodeFrame x00 x00 x00 x01 x01 0 [] x00 x00.

(** A frame with message identifier 0 and an eight-byte payload. *)
Definition shortHeartbeatDatagram : list byte :=
  encodeFrame x00 x00 x00 x01 x01 0
    [x04; x03; x02; x01; x02; x03; x80; x04] x00 x00.

(** A frame with message identifier 33 and a nine-byte payload. *)
Definition shortPositionDatagram : list byte :=
  encodeFrame x00 x00 x00 x01 x01 33
    [x11; x22; x33; x44; x55; x66; x77; x88; x99] x00 x00.

(** A global position: latitude 473977420, longitude 85455940, altitude
    -5000 millimetres. *)
Definition positionDatagram : list byte :=
  encodeFrame x00 x00 x00 x01 x01 33
    (encodeGlobalPosition 1000 473977420 85455940 (-5000)) x00 x00.

(** A second heartbeat with the same first eight payload bytes as
    [heartbeatDatagram] but another sender, another ninth byte and a tenth
    payload byte. *)
Definition otherHeartbeatDatagram : list byte :=
  encodeFrame x00 x00 x07 x2a x0b 0
    (encodeHeartbeat 0x01020304 x02 x03 x80 x04 xff ++ [xaa]) x12 x34.

(** The frame [parseFrame] builds from a sample datagram held in a buffer
    of its own size. *)
Definition frameOf (d : list byte) : frame :=
  match parseFrame (of_list d) (Z.of_nat (List.length d)) with
  | Ret (f, _) => f
  | Panic => frame_zero
  end.

(* ------------------------------------------------------------------ *)
(** ** The other read loops of the repository *)

(** A [for] loop run over a finite sequence of receive outcomes, for any
    loop body of the shape of [iteration]; [readLoop] is this run of
    [iteration]. *)
Fixpoint loopOver {A : Type}
    (body : slice -> event -> result (slice * option A * control))
    (buf : slice) (evs : list event) : list A * ending :=
  match evs with
  | [] => ([], Receiving)
  | ev :: rest =>
      match body buf ev with
      | Panic => ([], Crashed)
      | Ret (_, _, Return) => ([], Returned)
      | Ret (buf', r, Continue) =>
          let '(out, e) := loopOver body buf' rest in
          (match r with Some x => x :: out | None => out end, e)
      end
  end.

(** The loop body of [cmd/sniffer/main.go]: a received datagram goes through
    [parseMAVLinkPacket]; for a heartbeat the loop prints the armed flag and
    the heartbeat, and a decoding error is dropped. *)
Definition snifferIteration (buf : slice) (ev : event)
  : result (slice * option TelemetryRecord * control) :=
  match ev_recv ev with
  | Timeout =>
      if ev_done ev then Ret (buf, None, Return) else Ret (buf, None, Continue)
  | Failure =>
      if ev_done ev then Ret (buf, None, Return) else Ret (buf, None, Continue)
  | Datagram d =>
      let '(buf', n) := ReadFromUDP buf d in
      r <- parseMAVLinkPacket buf' n ;;
      match r with
      | inl heartbeat =>
          Ret (buf',
               Some (HEARTBEAT heartbeat (armed (BaseMode heartbeat))),
               Continue)
      | inr _ => Ret (buf', None, Continue)
      end
  end.

Definition snifferTask (evs : list event) : list TelemetryRecord * ending :=
  loopOver snifferIteration (make 2048) evs.

(** The hex-dump loop: every received datagram is printed as its byte count
    and the bytes of [buf[:min(n, 32)]]. *)
Module Hexdump.

Definition min (a b : Z) : Z := if a <? b then a else b.

Definition dump (buf : slice) (n : Z) : result (Z * list byte) :=
  s <- reslice buf 0 (min n 32) ;;
  Ret (n, contents s).

Definition iteration (buf : slice) (ev : event)
  : result (slice * option (Z * list byte) * control) :=
  match ev_recv ev with
  | Timeout =>
      if ev_done ev then Ret (buf, None, Return) else Ret (buf, None, Continue)
  | Failure =>
      if ev_done ev then Ret (buf, None, Return) else Ret (buf, None, Continue)
  | Datagram d =>
      let '(buf', n) := ReadFromUDP buf d in
      line <- dump buf' n ;;
      Ret (buf', Some line, Continue)
  end.

Definition task (evs : list event) : list (Z * list byte) * ending :=
  loopOver iteration (make 2048) evs.

(** The same loop without a cancellation signal: a receive error is logged
    and the loop goes on. *)
Definition plainIteration (buf : slice) (ev : event)
  : result (slice * option (Z * list byte) * control) :=
  match ev_recv ev with
  | Timeout => Ret (buf, None, Continue)
  | Failure => Ret (buf, None, Continue)
  | Datagram d =>
      let '(buf', n) := ReadFromUDP buf d in
      line <- dump buf' n ;;
      Ret (buf', Some line, Continue)
  end.

End Hexdump.

(** *** Datagrams that stop the telemetry loop *)

(** A datagram that holds a complete version-2 frame with message
    identifier 0 and fewer than eight payload bytes. *)
Definition shortHeartbeatFrame (d : list byte) : bool :=
  (12 <=? Z.of_nat (List.length d))
  && Byte.eqb (nth 0 d x00) xfd
  && (10 + u8 (nth 1 d x00) + 2 <=? Z.of_nat (List.length d))
  && (u8 (nth 1 d x00) <? 8)
  && Byte.eqb (nth 7 d x00) x00
  && Byte.eqb (nth 8 d x00) x00
  && Byte.eqb (nth 9 d x00) x00.

Definition isDatagram (ev : event) : option (list byte) :=
  match ev_recv ev with
  | Datagram d => Some d
  | _ => None
  end.

(* ------------------------------------------------------------------ *)
(** * Properties *)

(** ** Bytes, slices and little-endian words *)

Lemma u8_range (b : byte) : 0 <= u8 b < 256.
Proof.
  unfold u8. pose proof (Byte.to_N_bounded b). lia.
Qed.

Lemma index_in (s : slice) (i : Z) :
  0 <= i < len s -> index s i = Ret (byte_at s i).
Proof.
  intros [H0 H1]. unfold index.
  apply Z.leb_le in H0. apply Z.ltb_lt in H1. now rewrite H0, H1.
Qed.

Lemma index_out (s : slice) (i : Z) :
  len s <= i -> index s i = Panic.
Proof.
  intros H. unfold index.
  apply Z.ltb_ge in H. rewrite H. now rewrite andb_false_r.
Qed.

Lemma reslice_in (s : slice) (lo hi : Z) :
  0 <= lo <= hi -> hi <= cap s ->
  reslice s lo hi
  = Ret (mkSlice (s_arr s) (s_off s + lo) (hi - lo) (cap s - lo)).
Proof.
  intros [H0 H1] H2. unfold reslice.
  apply Z.leb_le in H0, H1, H2. now rewrite H0, H1, H2.
Qed.

(** A bitwise or of a number below [2^k] with a number shifted left by [k]
    places is their sum. *)
Lemma lor_shiftl_add (a b k : Z) :
  0 <= k -> 0 <= a < 2 ^ k -> Z.lor a (Z.shiftl b k) = a + 2 ^ k * b.
Proof.
  intros Hk Ha.
  assert (Hdisj : Z.land a (Z.shiftl b k) = 0).
  { apply Z.bits_inj'. intros n Hn.
    rewrite Z.land_spec, Z.bits_0.
    destruct (Z.lt_ge_cases n k) as [Hlt | Hge].
    - rewrite (Z.shiftl_spec_low b k n Hlt). apply andb_false_r.
    - replace a with (a mod 2 ^ k) by (apply Z.mod_small; lia).
      rewrite Z.mod_pow2_bits_high by lia. reflexivity. }
  rewrite <- Z.lxor_lor by exact Hdisj.
  rewrite <- Z.add_nocarry_lxor by exact Hdisj.
  rewrite Z.shiftl_mul_pow2 by exact Hk. lia.
Qed.

Lemma shl32_byte (b : byte) (k : Z) :
  0 <= k <= 24 -> shl32 (u8 b) k = Z.shiftl (u8 b) k.
Proof.
  intros Hk. pose proof (u8_range b) as Hb.
  unfold shl32, wrap32. apply Z.mod_small.
  rewrite Z.shiftl_mul_pow2 by lia.
  assert (2 ^ k <= 2 ^ 24) by (apply Z.pow_le_mono_r; lia).
  assert (0 < 2 ^ k) by (apply Z.pow_pos_nonneg; lia).
  split; [nia|].
  apply Z.le_lt_trans with (255 * 2 ^ 24); [nia | reflexivity].
Qed.

(** The 24-bit identifier as the code combines it, and as a number. *)
Lemma msgid_value (b7 b8 b9 : byte) :
  or32 (or32 (u8 b7) (shl32 (u8 b8) 8)) (shl32 (u8 b9) 16)
  = u8 b7 + 2 ^ 8 * u8 b8 + 2 ^ 16 * u8 b9.
Proof.
  pose proof (u8_range b7). pose proof (u8_range b8). pose proof (u8_range b9).
  unfold or32. rewrite !shl32_byte by lia.
  rewrite (lor_shiftl_add (u8 b7) (u8 b8) 8) by lia.
  rewrite lor_shiftl_add by lia. reflexivity.
Qed.

Lemma msgid_lor_value (b7 b8 b9 : byte) :
  Z.lor (Z.lor (u8 b7) (Z.shiftl (u8 b8) 8)) (Z.shiftl (u8 b9) 16)
  = u8 b7 + 2 ^ 8 * u8 b8 + 2 ^ 16 * u8 b9 /\
  0 <= Z.lor (Z.lor (u8 b7) (Z.shiftl (u8 b8) 8)) (Z.shiftl (u8 b9) 16)
    < 2 ^ 24.
Proof.
  pose proof (u8_range b7). pose proof (u8_range b8). pose proof (u8_range b9).
  rewrite <- (shl32_byte b8 8), <- (shl32_byte b9 16) by lia.
  pose proof (msgid_value b7 b8 b9) as Hv. unfold or32 in Hv.
  rewrite Hv. lia.
Qed.

Lemma uint32_value (b0 b1 b2 b3 : byte) :
  or32 (or32 (or32 (u8 b0) (shl32 (u8 b1) 8)) (shl32 (u8 b2) 16))
       (shl32 (u8 b3) 24)
  = le_uint32 b0 b1 b2 b3.
Proof.
  pose proof (u8_range b0). pose proof (u8_range b1).
  pose proof (u8_range b2). pose proof (u8_range b3).
  rewrite msgid_value. unfold or32, le_uint32.
  rewrite shl32_byte by lia.
  rewrite lor_shiftl_add by lia. reflexivity.
Qed.

Lemma le_uint32_range (b0 b1 b2 b3 : byte) :
  0 <= le_uint32 b0 b1 b2 b3 < 2 ^ 32.
Proof.
  pose proof (u8_range b0). pose proof (u8_range b1).
  pose proof (u8_range b2). pose proof (u8_range b3).
  unfold le_uint32. lia.
Qed.


Lemma byte_at_sub (p : slice) (a l c i : Z) :
  byte_at (mkSlice (s_arr p) (s_off p + a) l c) i = byte_at p (a + i).
Proof.
  unfold byte_at; cbn [s_arr s_off]. now rewrite Z.add_assoc.
Qed.

Lemma Uint32_in (q : slice) :
  4 <= len q ->
  LittleEndian_Uint32 q
  = Ret (le_uint32 (byte_at q 0) (byte_at q 1) (byte_at q 2) (byte_at q 3)).
Proof.
  intros Hq. unfold LittleEndian_Uint32.
  rewrite !index_in by lia. cbn [bind].
  now rewrite uint32_value.
Qed.

Lemma le_int32_range (b0 b1 b2 b3 : byte) :
  - 2 ^ 31 <= le_int32 b0 b1 b2 b3 < 2 ^ 31 /\
  le_int32 b0 b1 b2 b3 mod 2 ^ 32 = le_uint32 b0 b1 b2 b3.
Proof.
  pose proof (le_uint32_range b0 b1 b2 b3) as Hu.
  unfold le_int32. cbv zeta.
  destruct (le_uint32 b0 b1 b2 b3 <? 2 ^ 31) eqn:E.
  - apply Z.ltb_lt in E. split; [lia|]. apply Z.mod_small; lia.
  - apply Z.ltb_ge in E. split; [lia|].
    symmetry. apply (Z.mod_unique_pos _ _ (-1)); lia.
Qed.

Lemma armed_bit7 (b : byte) : armed b = Z.testbit (u8 b) 7.
Proof. destruct b; reflexivity. Qed.

(** ** Properties of the frame decoder *)

(** On a datagram the decoder never panics, and its result is the
    specification's outcome with the rejection reason dropped. *)
Lemma parseFrame_refines (buf : slice) (n : Z) :
  datagram buf n ->
  parseFrame buf n = Ret (forget_reason (decodeFrame_spec buf n)).
Proof.
  intros [Hwf Hn]. unfold parseFrame, decodeFrame_spec, declaredLength.
  change (headerLen + crcLen) with (10 + 2).
  destruct (n <? 10 + 2) eqn:Hshort; [reflexivity|].
  apply Z.ltb_ge in Hshort.
  rewrite index_in by lia. cbn [bind].
  destruct (Byte.eqb (byte_at buf 0) xfd) eqn:Hmagic; cbn [negb];
    [|reflexivity].
  rewrite index_in by lia. cbn [bind].
  pose proof (u8_range (byte_at buf 1)) as Hpl.
  replace (headerLen + u8 (byte_at buf 1) + crcLen)
    with (u8 (byte_at buf 1) + 10 + 2) by (unfold headerLen, crcLen; lia).
  destruct (n <? u8 (byte_at buf 1) + 10 + 2) eqn:Hinc; [reflexivity|].
  apply Z.ltb_ge in Hinc.
  rewrite !index_in by lia. cbn [bind].
  destruct Hwf as (Hoff & Hlen & Harr).
  rewrite reslice_in by (unfold cap, len in *; lia). cbn [bind forget_reason].
  unfold or32. rewrite !shl32_byte by lia.
  replace (10 + u8 (byte_at buf 1) - 10) with (u8 (byte_at buf 1)) by lia.
  reflexivity.
Qed.

Lemma parseFrame_accepts (buf : slice) (n : Z) (f : frame) :
  datagram buf n ->
  parseFrame buf n = Ret (f, true) ->
  decodeFrame_spec buf n = inl f.
Proof.
  intros Hd Hp. rewrite (parseFrame_refines buf n Hd) in Hp.
  destruct (decodeFrame_spec buf n) as [g | r]; simpl in Hp.
  - now inversion Hp.
  - discriminate.
Qed.

(** What an accepted datagram and its frame satisfy. *)
Lemma parseFrame_inv (buf : slice) (n : Z) (f : frame) :
  datagram buf n ->
  parseFrame buf n = Ret (f, true) ->
  12 <= n /\ byte_at buf 0 = xfd /\ 10 + declaredLength buf + 2 <= n /\
  f = mkFrame (declaredLength buf) (byte_at buf 5) (byte_at buf 6)
              (Z.lor (Z.lor (u8 (byte_at buf 7))
                            (Z.shiftl (u8 (byte_at buf 8)) 8))
                     (Z.shiftl (u8 (byte_at buf 9)) 16))
              (mkSlice (s_arr buf) (s_off buf + 10) (declaredLength buf)
                       (cap buf - 10)).
Proof.
  intros Hd Hp. apply parseFrame_accepts in Hp; [|exact Hd].
  unfold decodeFrame_spec in Hp.
  destruct (n <? 10 + 2) eqn:H1; [discriminate|].
  destruct (Byte.eqb (byte_at buf 0) xfd) eqn:H2; simpl in Hp; [|discriminate].
  destruct (n <? declaredLength buf + 10 + 2) eqn:H3; [discriminate|].
  apply Z.ltb_ge in H1, H3. apply Byte.byte_dec_bl in H2.
  inversion Hp. repeat split; try lia. exact H2.
Qed.

Lemma validated_payload (f : frame) :
  validated f ->
  wf_slice (Payload f) /\ len (Payload f) = Len f /\ 0 <= Len f <= 255 /\
  0 <= MsgID f < 2 ^ 24.
Proof.
  intros (buf & n & Hd & Hp).
  destruct (parseFrame_inv buf n f Hd Hp) as (Hn & _ & Htot & ->).
  destruct Hd as ((Hoff & Hlen & Harr) & Hnlen).
  pose proof (u8_range (byte_at buf 1)) as Hpl.
  pose proof (msgid_lor_value (byte_at buf 7) (byte_at buf 8) (byte_at buf 9))
    as [_ Hid].
  unfold wf_slice, declaredLength, len, cap in *.
  cbn [Payload Len MsgID s_arr s_off s_len s_cap].
  repeat split; lia.
Qed.

(** C3 (counterexample). Three datagrams that fail three different checks
    of the validation sequence, a too short one, one with a wrong first
    byte and one whose declared payload does not fit, get one and the same
    result from [parseFrame]: the zero frame with [false]. The decoder
    reports no rejection reason. *)
Lemma rejection_reason_not_returned :
  decodeFrame_spec (of_list []) 0 = inr TooShort /\
  decodeFrame_spec (of_list (repeat x00 12)) 12 = inr BadMagic /\
  decodeFrame_spec (of_list (xfd :: x09 :: repeat x00 10)) 12
    = inr Incomplete /\
  parseFrame (of_list []) 0 = Ret (frame_zero, false) /\
  parseFrame (of_list (repeat x00 12)) 12 = Ret (frame_zero, false) /\
  parseFrame (of_list (xfd :: x09 :: repeat x00 10)) 12
    = Ret (frame_zero, false).
Proof.
  repeat split; reflexivity.
Qed.

(** C3 (amended). On every datagram of length [n] the decoder applies the
    three checks in order and rejects at the first failing one, each time
    with the same result, the zero frame and [false]: when [n < 12];
    otherwise when the first byte is not 0xFD; otherwise when
    [10 + declared payload length + 2] exceeds [n]. It never panics, it
    produces a frame exactly when all three checks pass, and its result is
    the specification's outcome with the reason dropped. *)
Theorem parseFrame_validation (buf : slice) (n : Z) :
  datagram buf n ->
  (n < 12 -> parseFrame buf n = Ret (frame_zero, false)) /\
  (12 <= n -> byte_at buf 0 <> xfd ->
   parseFrame buf n = Ret (frame_zero, false)) /\
  (12 <= n -> byte_at buf 0 = xfd -> n < 10 + declaredLength buf + 2 ->
   parseFrame buf n = Ret (frame_zero, false)) /\
  ((exists f, parseFrame buf n = Ret (f, true)) <->
   12 <= n /\ byte_at buf 0 = xfd /\ 10 + declaredLength buf + 2 <= n) /\
  parseFrame buf n = Ret (forget_reason (decodeFrame_spec buf n)).
Proof.
  intros Hd. pose proof (parseFrame_refines buf n Hd) as Href.
  unfold decodeFrame_spec in Href. change (10 + 2) with 12 in Href.
  refine (conj _ (conj _ (conj _ (conj (conj _ _) _)))).
  - intros H. apply Z.ltb_lt in H. now rewrite H in Href.
  - intros H1 H2. apply Z.ltb_ge in H1. rewrite H1 in Href.
    destruct (Byte.eqb (byte_at buf 0) xfd) eqn:E; [|exact Href].
    apply Byte.byte_dec_bl in E. contradiction.
  - intros H1 H2 H3. apply Z.ltb_ge in H1. rewrite H1, H2 in Href.
    assert (E : (n <? declaredLength buf + 10 + 2) = true)
      by (apply Z.ltb_lt; lia).
    now rewrite E in Href.
  - intros [f Hf].
    destruct (parseFrame_inv buf n f Hd Hf) as (H1 & H2 & H3 & _). auto.
  - intros (H1 & H2 & H3). apply Z.ltb_ge in H1. rewrite H1, H2 in Href.
    assert (E : (n <? declaredLength buf + 10 + 2) = false)
      by (apply Z.ltb_ge; lia).
    rewrite E in Href. cbn in Href. eexists. exact Href.
  - exact (parseFrame_refines buf n Hd).
Qed.

Lemma parseFrame_validation_witness :
  datagram (of_list heartbeatDatagram) 21 /\
  exists f, parseFrame (of_list heartbeatDatagram) 21 = Ret (f, true).
Proof.
  assert (Hd : datagram (of_list heartbeatDatagram) 21).
  { unfold datagram, wf_slice, of_list, len. simpl. lia. }
  split; [exact Hd|].
  apply (parseFrame_validation (of_list heartbeatDatagram) 21 Hd).
  repeat split; [lia | unfold declaredLength; simpl; lia].
Defined.

(** C4. The frame of an accepted datagram has systemId = byte 5,
    componentId = byte 6, messageId = byte7 | byte8<<8 | byte9<<16 (the
    24-bit little-endian number those bytes spell), payloadLength = byte 1,
    and its payload is bytes 10 up to 10+payloadLength (exclusive) of the
    datagram. *)
Theorem parseFrame_fields (buf : slice) (n : Z) (f : frame) :
  datagram buf n ->
  parseFrame buf n = Ret (f, true) ->
  Len f = u8 (byte_at buf 1) /\
  SysID f = byte_at buf 5 /\
  CompID f = byte_at buf 6 /\
  MsgID f = Z.lor (Z.lor (u8 (byte_at buf 7)) (Z.shiftl (u8 (byte_at buf 8)) 8))
                  (Z.shiftl (u8 (byte_at buf 9)) 16) /\
  MsgID f = u8 (byte_at buf 7) + 2 ^ 8 * u8 (byte_at buf 8)
            + 2 ^ 16 * u8 (byte_at buf 9) /\
  0 <= MsgID f < 2 ^ 24 /\
  len (Payload f) = Len f /\
  (forall i, 0 <= i < Len f -> index (Payload f) i = index buf (10 + i)) /\
  contents (Payload f) = firstn (Z.to_nat (Len f)) (skipn 10 (contents buf)).
Proof.
  intros Hd Hp.
  destruct (parseFrame_inv buf n f Hd Hp) as (Hn & _ & Htot & ->).
  destruct Hd as ((Hoff & Hlen & Harr) & Hnlen).
  pose proof (msgid_lor_value (byte_at buf 7) (byte_at buf 8) (byte_at buf 9))
    as [Hid Hrange].
  cbn [Payload Len MsgID SysID CompID]. unfold declaredLength in *.
  repeat split; try reflexivity; try lia.
  - intros i Hi.
    rewrite !index_in by (unfold len in *; cbn [s_len]; lia).
    unfold byte_at; cbn [s_arr s_off]. now rewrite Z.add_assoc.
  - unfold contents; cbn [s_arr s_off s_len].
    rewrite skipn_firstn_comm, firstn_firstn, skipn_skipn.
    unfold len in *. f_equal; [|f_equal]; lia.
Qed.

Lemma parseFrame_fields_witness :
  SysID (frameOf heartbeatDatagram) = x01 /\
  MsgID (frameOf heartbeatDatagram) = 0 /\
  contents (Payload (frameOf heartbeatDatagram))
    = [x04; x03; x02; x01; x02; x03; x80; x04; x03].
Proof.
  assert (Hd : datagram (of_list heartbeatDatagram) 21).
  { unfold datagram, wf_slice, of_list, len. simpl. lia. }
  assert (Hp : parseFrame (of_list heartbeatDatagram) 21
               = Ret (frameOf heartbeatDatagram, true)) by reflexivity.
  destruct (parseFrame_fields _ _ _ Hd Hp)
    as (_ & H5 & _ & _ & Hid & _ & _ & _ & Hc).
  rewrite H5, Hid, Hc. refine (conj _ (conj _ _)); reflexivity.
Defined.

(** C8. Every frame the decoder produces from a datagram of length [n] has
    a payload slice of exactly payloadLength bytes, a view into the
    datagram's own array that starts 10 bytes in and ends at least 2 bytes
    before the datagram's end, and 10 + payloadLength + 2 <= n. *)
Theorem parseFrame_payload_invariant (buf : slice) (n : Z) (f : frame) :
  datagram buf n ->
  parseFrame buf n = Ret (f, true) ->
  len (Payload f) = Len f /\
  List.length (contents (Payload f)) = Z.to_nat (Len f) /\
  0 <= Len f <= 255 /\
  s_arr (Payload f) = s_arr buf /\
  s_off (Payload f) = s_off buf + 10 /\
  s_off (Payload f) + len (Payload f) + 2 <= s_off buf + n /\
  wf_slice (Payload f) /\
  10 + Len f + 2 <= n.
Proof.
  intros Hd Hp.
  destruct (parseFrame_inv buf n f Hd Hp) as (Hn & _ & Htot & ->).
  destruct Hd as ((Hoff & Hlen & Harr) & Hnlen).
  pose proof (u8_range (byte_at buf 1)) as Hpl.
  unfold wf_slice, contents, declaredLength, len, cap in *.
  cbn [Payload Len s_arr s_off s_len s_cap].
  rewrite length_firstn, length_skipn.
  repeat split; lia.
Qed.

Lemma parseFrame_payload_invariant_witness :
  len (Payload (frameOf heartbeatDatagram)) = 9 /\
  10 + Len (frameOf heartbeatDatagram) + 2 <= 21.
Proof.
  assert (Hd : datagram (of_list heartbeatDatagram) 21).
  { unfold datagram, wf_slice, of_list, len. simpl. lia. }
  assert (Hp : parseFrame (of_list heartbeatDatagram) 21
               = Ret (frameOf heartbeatDatagram, true)) by reflexivity.
  destruct (parseFrame_payload_invariant _ _ _ Hd Hp)
    as (H1 & _ & _ & _ & _ & _ & _ & H2).
  split; [rewrite H1; reflexivity | exact H2].
Defined.

(** ** Properties of the heartbeat decoder *)

(** The decoder's guard lets a frame through when its identifier is 0 or
    its payload has nine bytes; with at least eight payload bytes the
    decode then succeeds. *)
Lemma tryHeartbeat_decodes (f : frame) :
  wf_slice (Payload f) ->
  MsgID f = 0 \/ len (Payload f) = 9 ->
  8 <= len (Payload f) ->
  tryHeartbeat f
  = Ret (mkHeartbeat (payloadByte f 4) (payloadByte f 5) (payloadByte f 6)
           (le_uint32 (payloadByte f 0) (payloadByte f 1)
                      (payloadByte f 2) (payloadByte f 3))
           (payloadByte f 7),
         true).
Proof.
  intros (Hoff & Hlen & Harr) Hguard H8. unfold tryHeartbeat.
  assert (G : negb (MsgID f =? 0) && negb (len (Payload f) =? 9) = false).
  { destruct Hguard as [-> | ->]; [reflexivity | apply andb_false_r]. }
  rewrite G. cbv zeta.
  rewrite !index_in by lia. cbn [bind].
  rewrite reslice_in by (unfold cap, len in *; lia). cbn [bind].
  rewrite Uint32_in by (unfold len; cbn [s_len]; lia). cbn [bind].
  rewrite !byte_at_sub. reflexivity.
Qed.

(** With identifier 0 the guard never rejects, and a payload of fewer than
    eight bytes makes an index expression panic. *)
Lemma tryHeartbeat_panics (f : frame) :
  MsgID f = 0 -> len (Payload f) < 8 -> tryHeartbeat f = Panic.
Proof.
  intros Hid Hlen. unfold tryHeartbeat. rewrite Hid. cbn [Z.eqb negb andb].
  cbv zeta.
  destruct (Z_le_gt_dec (len (Payload f)) 4) as [L4 | L4];
    [now rewrite (index_out _ 4 L4)|].
  rewrite (index_in _ 4) by lia. cbn [bind].
  destruct (Z_le_gt_dec (len (Payload f)) 5) as [L5 | L5];
    [now rewrite (index_out _ 5 L5)|].
  rewrite (index_in _ 5) by lia. cbn [bind].
  destruct (Z_le_gt_dec (len (Payload f)) 6) as [L6 | L6];
    [now rewrite (index_out _ 6 L6)|].
  rewrite (index_in _ 6) by lia. cbn [bind].
  rewrite (index_out _ 7) by lia.
  destruct (reslice (Payload f) 0 4) as [q|]; cbn [bind]; [|reflexivity].
  destruct (LittleEndian_Uint32 q); reflexivity.
Qed.

Lemma tryHeartbeat_rejects (f : frame) :
  MsgID f <> 0 -> len (Payload f) <> 9 ->
  tryHeartbeat f = Ret (Heartbeat_zero, false).
Proof.
  intros Hid Hlen. unfold tryHeartbeat.
  apply Z.eqb_neq in Hid, Hlen. now rewrite Hid, Hlen.
Qed.

Lemma dispatch_heartbeat (f : frame) (hb : Heartbeat) :
  tryHeartbeat f = Ret (hb, true) ->
  dispatch f = Ret (Some (HEARTBEAT hb (armed (BaseMode hb)))).
Proof.
  intros H. unfold dispatch. now rewrite H.
Qed.

Lemma datagram_of_list (d : list byte) :
  datagram (of_list d) (Z.of_nat (List.length d)).
Proof.
  unfold datagram, wf_slice, of_list, len. cbn [s_arr s_off s_len s_cap]. lia.
Qed.

(** C5. For every validated frame with messageId 0 and a payload of at
    least 9 bytes the heartbeat decode succeeds with customMode = the
    little-endian uint32 of payload bytes 0-3, vehicleType = byte 4,
    autopilotType = byte 5, baseMode = byte 6, systemStatus = byte 7, and
    the record the dispatch yields has armed = (baseMode & 0x80) != 0, that
    is bit 7 of baseMode: false for 0x7F, true for 0xFF. *)
Theorem heartbeat_decode (f : frame) :
  validated f ->
  MsgID f = 0 ->
  9 <= len (Payload f) ->
  let hb := mkHeartbeat (payloadByte f 4) (payloadByte f 5) (payloadByte f 6)
              (le_uint32 (payloadByte f 0) (payloadByte f 1)
                         (payloadByte f 2) (payloadByte f 3))
              (payloadByte f 7) in
  tryHeartbeat f = Ret (hb, true) /\
  dispatch f = Ret (Some (HEARTBEAT hb (armed (payloadByte f 6)))) /\
  armed (payloadByte f 6) = negb (Z.land (u8 (payloadByte f 6)) 0x80 =? 0) /\
  armed (payloadByte f 6) = Z.testbit (u8 (payloadByte f 6)) 7 /\
  armed x7f = false /\ armed xff = true.
Proof.
  intros Hv Hid Hlen hb.
  destruct (validated_payload f Hv) as (Hwf & _).
  assert (Hhb : tryHeartbeat f = Ret (hb, true))
    by (apply tryHeartbeat_decodes; [exact Hwf | now left | lia]).
  refine (conj Hhb (conj _ (conj _ (conj _ (conj _ _))))).
  - exact (dispatch_heartbeat f hb Hhb).
  - reflexivity.
  - apply armed_bit7.
  - reflexivity.
  - reflexivity.
Qed.

Lemma heartbeat_decode_witness :
  validated (frameOf heartbeatDatagram) /\
  dispatch (frameOf heartbeatDatagram)
  = Ret (Some (HEARTBEAT (mkHeartbeat x02 x03 x80 0x01020304 x04) true)).
Proof.
  assert (Hv : validated (frameOf heartbeatDatagram)).
  { exists (of_list heartbeatDatagram), 21.
    split; [exact (datagram_of_list heartbeatDatagram) | reflexivity]. }
  split; [exact Hv|].
  assert (Hid : MsgID (frameOf heartbeatDatagram) = 0) by reflexivity.
  assert (Hlen : 9 <= len (Payload (frameOf heartbeatDatagram)))
    by (vm_compute; discriminate).
  destruct (heartbeat_decode _ Hv Hid Hlen) as (_ & Hdisp & _).
  rewrite Hdisp. reflexivity.
Defined.

(** C10. Two frames with messageId 0 whose payloads hold bytes 0-7 and agree
    on them decode to the same heartbeat, whatever their later payload
    bytes, payload lengths, systemId and componentId are. *)
Theorem heartbeat_depends_on_first_eight (f1 f2 : frame) :
  MsgID f1 = 0 -> MsgID f2 = 0 ->
  wf_slice (Payload f1) -> wf_slice (Payload f2) ->
  8 <= len (Payload f1) -> 8 <= len (Payload f2) ->
  (forall i, 0 <= i < 8 -> payloadByte f1 i = payloadByte f2 i) ->
  tryHeartbeat f1 = tryHeartbeat f2 /\
  dispatch f1 = dispatch f2 /\
  exists hb, tryHeartbeat f1 = Ret (hb, true).
Proof.
  intros Hid1 Hid2 Hwf1 Hwf2 H1 H2 Hagree.
  pose proof (tryHeartbeat_decodes f1 Hwf1 (or_introl Hid1) H1) as E1.
  pose proof (tryHeartbeat_decodes f2 Hwf2 (or_introl Hid2) H2) as E2.
  assert (E : tryHeartbeat f1 = tryHeartbeat f2).
  { rewrite E1, E2. rewrite !Hagree by lia. reflexivity. }
  refine (conj E (conj _ _)).
  - rewrite (dispatch_heartbeat f1 _ E1).
    rewrite E in E1. now rewrite (dispatch_heartbeat f2 _ E1).
  - eexists. exact E1.
Qed.

Lemma heartbeat_depends_on_first_eight_witness :
  tryHeartbeat (frameOf heartbeatDatagram)
  = tryHeartbeat (frameOf otherHeartbeatDatagram).
Proof.
  apply (heartbeat_depends_on_first_eight
           (frameOf heartbeatDatagram) (frameOf otherHeartbeatDatagram)).
  - reflexivity.
  - reflexivity.
  - unfold wf_slice. simpl. lia.
  - unfold wf_slice. simpl. lia.
  - unfold len. simpl. lia.
  - unfold len. simpl. lia.
  - intros i Hi.
    assert (Hc : i = 0 \/ i = 1 \/ i = 2 \/ i = 3 \/ i = 4 \/ i = 5 \/ i = 6
                 \/ i = 7) by lia.
    destruct Hc as [-> | [-> | [-> | [-> | [-> | [-> | [-> | ->]]]]]]];
      reflexivity.
Defined.

(** ** The guard of the heartbeat decoder *)

Lemma tryGlobalPosition_rejects (f : frame) :
  MsgID f <> 33 \/ len (Payload f) < 28 ->
  tryGlobalPosition f = Ret (0%float, 0%float, 0%float, false).
Proof.
  intros H. unfold tryGlobalPosition.
  assert (G : negb (MsgID f =? 33) || (len (Payload f) <? 28) = true).
  { destruct H as [H | H].
    - apply Z.eqb_neq in H. now rewrite H.
    - apply Z.ltb_lt in H. rewrite H. apply orb_true_r. }
  now rewrite G.
Qed.

(** What the dispatch does get right: an identifier other than 0 and 33
    with a payload that is not nine bytes long yields no record. *)
Lemma dispatch_unknown_id (f : frame) :
  MsgID f <> 0 -> MsgID f <> 33 -> len (Payload f) <> 9 ->
  dispatch f = Ret None.
Proof.
  intros H0 H33 H9. unfold dispatch.
  rewrite (tryHeartbeat_rejects f H0 H9). cbn [bind].
  now rewrite (tryGlobalPosition_rejects f (or_introl H33)).
Qed.

(** A nine-byte payload is decoded as a heartbeat whatever the identifier
    is: the guard joins its two tests with [&&]. *)
Lemma dispatch_nine_byte_payload (f : frame) :
  validated f -> len (Payload f) = 9 ->
  exists hb, dispatch f = Ret (Some (HEARTBEAT hb (armed (BaseMode hb)))).
Proof.
  intros Hv H9. destruct (validated_payload f Hv) as (Hwf & _).
  eexists. apply dispatch_heartbeat.
  apply tryHeartbeat_decodes; [exact Hwf | now right | lia].
Qed.

Lemma dispatch_short_heartbeat (f : frame) :
  MsgID f = 0 -> len (Payload f) < 8 -> dispatch f = Panic.
Proof.
  intros H0 H8. unfold dispatch. now rewrite (tryHeartbeat_panics f H0 H8).
Qed.

Lemma dispatch_short_position (f : frame) :
  MsgID f = 33 -> len (Payload f) < 28 -> len (Payload f) <> 9 ->
  dispatch f = Ret None.
Proof.
  intros H33 H28 H9. unfold dispatch.
  rewrite tryHeartbeat_rejects by (try rewrite H33; lia). cbn [bind].
  now rewrite (tryGlobalPosition_rejects f (or_intror H28)).
Qed.

(** X12. Whatever the earlier decoder accepts as a heartbeat, the frame decoder
    followed by [tryHeartbeat] decodes to the same heartbeat; the earlier
    decoder accepts messageId 0 with a payload length of exactly 9 only. *)
Lemma parseMAVLinkPacket_heartbeat (buf : slice) (n : Z) (hb : Heartbeat) :
  datagram buf n ->
  parseMAVLinkPacket buf n = Ret (inl hb) ->
  exists f, parseFrame buf n = Ret (f, true) /\ MsgID f = 0 /\
            len (Payload f) = 9 /\ tryHeartbeat f = Ret (hb, true).
Proof.
  intros Hd H. pose proof Hd as [(Hoff & Hlen & Harr) Hn].
  unfold parseMAVLinkPacket in H.
  destruct (n <? 10) eqn:E10; cbn [bind] in H; [discriminate H|].
  apply Z.ltb_ge in E10.
  rewrite index_in in H by lia. cbn [bind] in H.
  destruct (Byte.eqb (byte_at buf 0) xfd) eqn:Em; cbn [negb] in H;
    [|discriminate H].
  rewrite !index_in in H by lia. cbn [bind] in H.
  destruct (negb _ || negb _) eqn:G in H; [discriminate H|].
  apply orb_false_elim in G. destruct G as [Gid Gpl].
  apply negb_false_iff, Z.eqb_eq in Gid, Gpl.
  destruct (n <? 10 + 9 + 2) eqn:E21; [discriminate H|].
  apply Z.ltb_ge in E21.
  rewrite reslice_in in H by (unfold cap, len in *; lia). cbn [bind] in H.
  rewrite !index_in in H by (unfold len; cbn [s_len]; lia). cbn [bind] in H.
  rewrite reslice_in in H
    by (unfold cap; cbn [s_cap]; unfold cap, len in *; lia).
  cbn [bind] in H.
  rewrite Uint32_in in H by (unfold len; cbn [s_len]; lia). cbn [bind] in H.
  pose proof (parseFrame_refines buf n Hd) as Hp.
  unfold decodeFrame_spec, declaredLength in Hp.
  rewrite Em, Gpl in Hp. cbn [negb] in Hp.
  replace (n <? 10 + 2) with false in Hp by (symmetry; apply Z.ltb_ge; lia).
  replace (n <? 9 + 10 + 2) with false in Hp by (symmetry; apply Z.ltb_ge; lia).
  cbn [forget_reason] in Hp.
  eexists. split; [exact Hp|].
  unfold or32 in Gid. rewrite !shl32_byte in Gid by lia.
  cbn [MsgID Payload]. unfold len at 1. cbn [s_len].
  refine (conj Gid (conj eq_refl _)).
  unfold tryHeartbeat. cbn [MsgID Payload]. rewrite Gid. cbn [Z.eqb negb andb].
  cbv zeta.
  rewrite !index_in by (unfold len; cbn [s_len]; lia). cbn [bind].
  rewrite reslice_in by (unfold cap; cbn [s_cap]; unfold cap, len in *; lia).
  cbn [bind].
  rewrite Uint32_in by (unfold len; cbn [s_len]; lia). cbn [bind].
  inversion H as [Hhb]. reflexivity.
Qed.

(** C1 (the code at a failing input). The validated frame of
    [unknownIdDatagram] has messageId 42 and a nine-byte payload, and the
    dispatch yields a heartbeat record for it, which the read loop prints;
    the earlier decoder [parseMAVLinkPacket] rejects the same datagram as
    not a heartbeat. *)
Theorem unknown_id_decoded_as_heartbeat :
  let f := frameOf unknownIdDatagram in
  let hb := mkHeartbeat x55 x66 x77 0x44332211 x88 in
  parseFrame (of_list unknownIdDatagram) 21 = Ret (f, true) /\
  MsgID f = 42 /\ len (Payload f) = 9 /\
  tryHeartbeat f = Ret (hb, true) /\
  dispatch f = Ret (Some (HEARTBEAT hb false)) /\
  receiveTask [mkEvent (Datagram unknownIdDatagram) false]
    = ([HEARTBEAT hb false], Receiving) /\
  parseMAVLinkPacket (of_list unknownIdDatagram) 21
    = Ret (inr "not a HEARTBEAT message"%string).
Proof.
  repeat split; vm_compute; reflexivity.
Qed.

(** C2 (the code at failing inputs). The validated frame of
    [emptyHeartbeatDatagram] has messageId 0 and an empty payload, and
    [tryHeartbeat] panics on it, so the dispatch and the handling of the
    datagram panic; [parseMAVLinkPacket] rejects the same datagram without
    a panic. A frame with messageId 0 and eight payload bytes, and one with
    messageId 33 and nine payload bytes, are decoded as heartbeats instead
    of yielding no record. *)
Theorem short_heartbeat_payload_panics :
  let f := frameOf emptyHeartbeatDatagram in
  parseFrame (of_list emptyHeartbeatDatagram) 12 = Ret (f, true) /\
  MsgID f = 0 /\ len (Payload f) = 0 /\
  tryHeartbeat f = Panic /\
  dispatch f = Panic /\
  handleDatagram (of_list emptyHeartbeatDatagram) 12 = Panic /\
  parseMAVLinkPacket (of_list emptyHeartbeatDatagram) 12
    = Ret (inr "not a HEARTBEAT message"%string) /\
  dispatch (frameOf shortHeartbeatDatagram)
    = Ret (Some (HEARTBEAT (mkHeartbeat x02 x03 x80 0x01020304 x04) true)) /\
  MsgID (frameOf shortPositionDatagram) = 33 /\
  dispatch (frameOf shortPositionDatagram)
    = Ret (Some (HEARTBEAT (mkHeartbeat x55 x66 x77 0x44332211 x88) false)).
Proof.
  repeat split; vm_compute; reflexivity.
Qed.

(** ** Properties of the global position decoder *)

Lemma tryGlobalPosition_decodes (f : frame) :
  wf_slice (Payload f) ->
  MsgID f = 33 ->
  28 <= len (Payload f) ->
  tryGlobalPosition f
  = Ret (degreesOfE7 (le_int32 (payloadByte f 4) (payloadByte f 5)
                               (payloadByte f 6) (payloadByte f 7)),
         degreesOfE7 (le_int32 (payloadByte f 8) (payloadByte f 9)
                               (payloadByte f 10) (payloadByte f 11)),
         metersOfMillimeters
           (le_int32 (payloadByte f 12) (payloadByte f 13)
                     (payloadByte f 14) (payloadByte f 15)),
         true).
Proof.
  intros (Hoff & Hlen & Harr) Hid H28. unfold tryGlobalPosition.
  assert (G : negb (MsgID f =? 33) || (len (Payload f) <? 28) = false).
  { rewrite Hid. apply Z.ltb_ge in H28. now rewrite H28. }
  rewrite G. cbv zeta.
  rewrite !reslice_in by (unfold cap, len in *; lia). cbn [bind].
  rewrite !Uint32_in by (unfold len; cbn [s_len]; lia). cbn [bind].
  rewrite !byte_at_sub. reflexivity.
Qed.

(** C6. For every validated frame with messageId 33 and a payload of at
    least 28 bytes the global position decode succeeds, and the dispatch
    yields the record, with latitudeDeg and longitudeDeg the signed 32-bit
    little-endian integers at payload bytes 4-7 and 8-11 divided by 1e7,
    and altitudeMeters the one at bytes 12-15 divided by 1000, in binary64
    arithmetic; payload bytes 0-3 and 16 onwards do not enter the result.
    Latitude integer 473977420 gives 47.397742 and altitude integer -5000
    gives -5.0. *)
Theorem global_position_decode (f : frame) :
  validated f ->
  MsgID f = 33 ->
  28 <= len (Payload f) ->
  let latInt := le_int32 (payloadByte f 4) (payloadByte f 5)
                         (payloadByte f 6) (payloadByte f 7) in
  let lonInt := le_int32 (payloadByte f 8) (payloadByte f 9)
                         (payloadByte f 10) (payloadByte f 11) in
  let altMM := le_int32 (payloadByte f 12) (payloadByte f 13)
                        (payloadByte f 14) (payloadByte f 15) in
  tryGlobalPosition f
  = Ret (degreesOfE7 latInt, degreesOfE7 lonInt, metersOfMillimeters altMM,
         true) /\
  dispatch f
  = Ret (Some (GLOBAL_POSITION_INT (degreesOfE7 latInt) (degreesOfE7 lonInt)
                                   (metersOfMillimeters altMM))) /\
  degreesOfE7 473977420 = 47.397742%float /\
  metersOfMillimeters (-5000) = (-5)%float.
Proof.
  intros Hv Hid H28 latInt lonInt altMM.
  destruct (validated_payload f Hv) as (Hwf & _).
  pose proof (tryGlobalPosition_decodes f Hwf Hid H28) as Hgp.
  fold latInt lonInt altMM in Hgp.
  refine (conj Hgp (conj _ (conj _ _))).
  - unfold dispatch.
    rewrite tryHeartbeat_rejects by (try rewrite Hid; lia). cbn [bind].
    now rewrite Hgp.
  - reflexivity.
  - reflexivity.
Qed.

Lemma global_position_decode_witness :
  validated (frameOf positionDatagram) /\
  dispatch (frameOf positionDatagram)
  = Ret (Some (GLOBAL_POSITION_INT 47.397742%float 8.545594%float
                                   (-5)%float)).
Proof.
  assert (Hv : validated (frameOf positionDatagram)).
  { exists (of_list positionDatagram), 40.
    split; [exact (datagram_of_list positionDatagram) | reflexivity]. }
  split; [exact Hv|].
  assert (Hid : MsgID (frameOf positionDatagram) = 33) by reflexivity.
  assert (Hlen : 28 <= len (Payload (frameOf positionDatagram)))
    by (vm_compute; discriminate).
  destruct (global_position_decode _ Hv Hid Hlen) as (_ & Hdisp & _).
  rewrite Hdisp. reflexivity.
Defined.

(** ** The read loop *)

(** A receive error, deadline expiry or other, ends the loop exactly when
    the cancellation signal is observed; otherwise the loop goes on with the
    buffer untouched and nothing printed. *)
Lemma iteration_error (buf : slice) (ev : event) :
  ev_recv ev = Timeout \/ ev_recv ev = Failure ->
  iteration buf ev
  = Ret (buf, None, if ev_done ev then Return else Continue).
Proof.
  intros [H | H]; unfold iteration; rewrite H; now destruct (ev_done ev).
Qed.

(** The goroutine returns only from an iteration whose receive failed and
    which observed the cancellation signal. *)
Lemma iteration_returns (buf buf' : slice) (ev : event)
    (r : option TelemetryRecord) :
  iteration buf ev = Ret (buf', r, Return) ->
  (ev_recv ev = Timeout \/ ev_recv ev = Failure) /\ ev_done ev = true.
Proof.
  unfold iteration. destruct (ev_recv ev) as [d | |].
  - destruct (ReadFromUDP buf d) as [b n].
    destruct (handleDatagram b n); cbn [bind]; intros H; discriminate H.
  - destruct (ev_done ev); intros H; [auto | discriminate H].
  - destruct (ev_done ev); intros H; [auto | discriminate H].
Qed.

(** After a successful receive the loop goes on, unless the handling of the
    datagram panics. *)
Lemma iteration_datagram (buf : slice) (d : list byte) (done : bool) :
  let '(buf', n) := ReadFromUDP buf d in
  iteration buf (mkEvent (Datagram d) done)
  = match handleDatagram buf' n with
    | Ret r => Ret (buf', r, Continue)
    | Panic => Panic
    end.
Proof.
  unfold iteration. cbn [ev_recv].
  destruct (ReadFromUDP buf d) as [b n].
  now destruct (handleDatagram b n).
Qed.

(** A datagram the frame decoder rejects is dropped and the loop goes on. *)
Lemma handleDatagram_rejected (buf : slice) (n : Z) (f : frame) :
  parseFrame buf n = Ret (f, false) -> handleDatagram buf n = Ret None.
Proof.
  intros H. unfold handleDatagram. now rewrite H.
Qed.

(** X10. A run of the goroutine that returned did so at a receive error with
    the cancellation signal observed. *)
Lemma readLoop_returned (evs : list event) :
  forall (buf : slice) (out : list TelemetryRecord),
    readLoop buf evs = (out, Returned) ->
    exists ev, In ev evs /\
               (ev_recv ev = Timeout \/ ev_recv ev = Failure) /\
               ev_done ev = true.
Proof.
  induction evs as [| ev rest IH]; intros buf out H; cbn [readLoop] in H.
  - discriminate H.
  - destruct (iteration buf ev) as [[[buf' r] c] |] eqn:E; [|discriminate H].
    destruct c.
    + destruct (readLoop buf' rest) as [out' e] eqn:E'.
      assert (e = Returned) by (inversion H; reflexivity). subst e.
      destruct (IH buf' out' E') as (ev' & Hin & Hev).
      exists ev'. split; [now right | exact Hev].
    + exists ev. split; [now left | exact (iteration_returns _ _ _ _ E)].
Qed.

(** A run that crashed did so in an iteration whose receive succeeded. *)
Lemma readLoop_crashed (evs : list event) :
  forall (buf : slice) (out : list TelemetryRecord),
    readLoop buf evs = (out, Crashed) ->
    exists ev d, In ev evs /\ ev_recv ev = Datagram d.
Proof.
  induction evs as [| ev rest IH]; intros buf out H; cbn [readLoop] in H.
  - discriminate H.
  - destruct (iteration buf ev) as [[[buf' r] c] |] eqn:E.
    + destruct c; [|discriminate H].
      destruct (readLoop buf' rest) as [out' e] eqn:E'.
      assert (e = Crashed) by (inversion H; reflexivity). subst e.
      destruct (IH buf' out' E') as (ev' & d & Hin & Hev).
      exists ev', d. split; [now right | exact Hev].
    + destruct (ev_recv ev) as [d | |] eqn:Er.
      * exists ev, d. split; [now left | exact Er].
      * rewrite iteration_error in E by (now left). discriminate E.
      * rewrite iteration_error in E by (now right). discriminate E.
Qed.

(** C9 (the code at a failing input). After the successful receive of
    [emptyHeartbeatDatagram] the iteration does not go on to the next one:
    the decode panics, and the run of the goroutine ends there, crashed,
    whatever the cancellation signal is and whatever would have been
    received next. *)
Theorem read_loop_crashes_on_empty_heartbeat :
  forall (done : bool) (evs : list event),
    iteration (make 2048) (mkEvent (Datagram emptyHeartbeatDatagram) done)
      = Panic /\
    receiveTask (mkEvent (Datagram emptyHeartbeatDatagram) done :: evs)
      = ([], Crashed).
Proof.
  intros done evs.
  assert (H : iteration (make 2048)
                (mkEvent (Datagram emptyHeartbeatDatagram) done) = Panic)
    by (vm_compute; reflexivity).
  split; [exact H|].
  unfold receiveTask. cbn [readLoop]. now rewrite H.
Qed.

(** ** Round trip of the synthetic heartbeat *)

(** C7. The heartbeat payload with customMode 0x01020304, vehicleType 2,
    autopilotType 3, baseMode 0x80 and systemStatus 4, put into a version-2
    frame with messageId 0 (whatever the unused header bytes, the sender's
    identifiers, the ninth payload byte and the trailer are), is accepted by
    [parseFrame], decoded by [tryHeartbeat], and comes out of the dispatch
    as a heartbeat record with armed true and customMode 0x01020304. *)
Theorem roundtrip_heartbeat :
  forall incompat compat seq sys comp ver crc0 crc1 : byte,
    let d := encodeFrame incompat compat seq sys comp 0
               (encodeHeartbeat 0x01020304 x02 x03 x80 x04 ver) crc0 crc1 in
    let hb := mkHeartbeat x02 x03 x80 0x01020304 x04 in
    exists f,
      parseFrame (of_list d) (Z.of_nat (List.length d)) = Ret (f, true) /\
      Len f = 9 /\ MsgID f = 0 /\
      tryHeartbeat f = Ret (hb, true) /\
      dispatch f = Ret (Some (HEARTBEAT hb true)) /\
      receiveTask [mkEvent (Datagram d) false]
        = ([HEARTBEAT hb true], Receiving).
Proof.
  intros. eexists. repeat split; vm_compute; reflexivity.
Qed.

(* ------------------------------------------------------------------ *)
(** * Further properties *)

(** ** Complete behaviour of the typed decoders and of the dispatch *)

Lemma tryHeartbeat_cases (f : frame) :
  wf_slice (Payload f) ->
  (MsgID f <> 0 /\ len (Payload f) <> 9 /\
   tryHeartbeat f = Ret (Heartbeat_zero, false)) \/
  ((MsgID f = 0 \/ len (Payload f) = 9) /\ 8 <= len (Payload f) /\
   tryHeartbeat f
   = Ret (mkHeartbeat (payloadByte f 4) (payloadByte f 5) (payloadByte f 6)
            (le_uint32 (payloadByte f 0) (payloadByte f 1)
                       (payloadByte f 2) (payloadByte f 3))
            (payloadByte f 7),
          true)) \/
  (MsgID f = 0 /\ len (Payload f) < 8 /\ tryHeartbeat f = Panic).
Proof.
  intros Hwf.
  destruct (Z.eq_dec (MsgID f) 0) as [H0 | H0].
  - destruct (Z_lt_le_dec (len (Payload f)) 8) as [H8 | H8].
    + right; right. auto using tryHeartbeat_panics.
    + right; left. split; [now left|]. split; [exact H8|].
      apply tryHeartbeat_decodes; auto.
  - destruct (Z.eq_dec (len (Payload f)) 9) as [H9 | H9].
    + right; left. split; [now right|]. split; [lia|].
      apply tryHeartbeat_decodes; auto. lia.
    + left. auto using tryHeartbeat_rejects.
Qed.

Lemma tryGlobalPosition_cases (f : frame) :
  wf_slice (Payload f) ->
  ((MsgID f <> 33 \/ len (Payload f) < 28) /\
   tryGlobalPosition f = Ret (0%float, 0%float, 0%float, false)) \/
  (MsgID f = 33 /\ 28 <= len (Payload f) /\
   tryGlobalPosition f
   = Ret (degreesOfE7 (le_int32 (payloadByte f 4) (payloadByte f 5)
                                (payloadByte f 6) (payloadByte f 7)),
          degreesOfE7 (le_int32 (payloadByte f 8) (payloadByte f 9)
                                (payloadByte f 10) (payloadByte f 11)),
          metersOfMillimeters
            (le_int32 (payloadByte f 12) (payloadByte f 13)
                      (payloadByte f 14) (payloadByte f 15)),
          true)).
Proof.
  intros Hwf.
  destruct (Z.eq_dec (MsgID f) 33) as [H33 | H33].
  - destruct (Z_lt_le_dec (len (Payload f)) 28) as [H28 | H28].
    + left. split; [now right|]. apply tryGlobalPosition_rejects. now right.
    + right. auto using tryGlobalPosition_decodes.
  - left. split; [now left|]. apply tryGlobalPosition_rejects. now left.
Qed.

Lemma dispatch_cases (f : frame) :
  wf_slice (Payload f) ->
  (MsgID f = 0 /\ len (Payload f) < 8 /\ dispatch f = Panic) \/
  ((MsgID f = 0 \/ len (Payload f) = 9) /\ 8 <= len (Payload f) /\
   exists hb, tryHeartbeat f = Ret (hb, true) /\
              dispatch f = Ret (Some (HEARTBEAT hb (armed (BaseMode hb))))) \/
  (MsgID f = 33 /\ 28 <= len (Payload f) /\
   exists lat lon alt,
     tryGlobalPosition f = Ret (lat, lon, alt, true) /\
     dispatch f = Ret (Some (GLOBAL_POSITION_INT lat lon alt)))
  \/
  (MsgID f <> 0 /\ len (Payload f) <> 9 /\
   (MsgID f <> 33 \/ len (Payload f) < 28) /\ dispatch f = Ret None).
Proof.
  intros Hwf.
  destruct (tryHeartbeat_cases f Hwf)
    as [(A1 & A2 & E) | [(B1 & B2 & E) | (C1 & C2 & E)]].
  - destruct (tryGlobalPosition_cases f Hwf) as [(G1 & G) | (G1 & G2 & G)].
    + right; right; right. repeat split; auto.
      unfold dispatch. rewrite E. cbn [bind]. now rewrite G.
    + right; right; left. repeat split; auto.
      do 3 eexists. split; [exact G|].
      unfold dispatch. rewrite E. cbn [bind]. now rewrite G.
  - right; left. repeat split; auto.
    eexists. split; [exact E|]. exact (dispatch_heartbeat f _ E).
  - left. repeat split; auto. unfold dispatch. now rewrite E.
Qed.

(** X1. The heartbeat decoder on any frame whose payload is a slice: it panics
    exactly for identifier 0 with fewer than eight payload bytes, reports
    [false] exactly for a non-zero identifier with a payload that is not
    nine bytes long, and decodes in every other case, that is for
    identifier 0 or a nine-byte payload, with at least eight bytes. A
    decoded custom mode is a 32-bit number. *)
Theorem tryHeartbeat_outcome (f : frame) :
  wf_slice (Payload f) ->
  (tryHeartbeat f = Panic <-> MsgID f = 0 /\ len (Payload f) < 8) /\
  ((exists hb, tryHeartbeat f = Ret (hb, false)) <->
   MsgID f <> 0 /\ len (Payload f) <> 9) /\
  ((exists hb, tryHeartbeat f = Ret (hb, true)) <->
   (MsgID f = 0 \/ len (Payload f) = 9) /\ 8 <= len (Payload f)) /\
  (forall hb ok, tryHeartbeat f = Ret (hb, ok) -> 0 <= CustomMode hb < 2 ^ 32).
Proof.
  intros Hwf.
  destruct (tryHeartbeat_cases f Hwf)
    as [(A1 & A2 & E) | [(B1 & B2 & E) | (C1 & C2 & E)]]; rewrite E.
  - refine (conj (conj _ _) (conj (conj _ _) (conj (conj _ _) _))).
    + intros H; discriminate H.
    + intros [H _]; contradiction.
    + auto.
    + intros _. eexists; reflexivity.
    + intros [hb H]; discriminate H.
    + intros [[H | H] _]; contradiction.
    + intros hb ok H. inversion H. cbn. lia.
  - refine (conj (conj _ _) (conj (conj _ _) (conj (conj _ _) _))).
    + intros H; discriminate H.
    + intros [_ H]; lia.
    + intros [hb H]; discriminate H.
    + intros [H1 H2]. destruct B1; [contradiction | lia].
    + auto.
    + intros _. eexists; reflexivity.
    + intros hb ok H. inversion H. cbn [CustomMode].
      apply le_uint32_range.
  - refine (conj (conj _ _) (conj (conj _ _) (conj (conj _ _) _))).
    + auto.
    + reflexivity.
    + intros [hb H]; discriminate H.
    + intros [H _]; contradiction.
    + intros [hb H]; discriminate H.
    + intros [_ H]; lia.
    + intros hb ok H; discriminate H.
Qed.

Lemma tryHeartbeat_outcome_witness :
  tryHeartbeat (frameOf emptyHeartbeatDatagram) = Panic /\
  exists hb, tryHeartbeat (frameOf unknownIdDatagram) = Ret (hb, true).
Proof.
  split.
  - apply (tryHeartbeat_outcome (frameOf emptyHeartbeatDatagram)).
    + unfold wf_slice. simpl. lia.
    + split; [reflexivity | unfold len; simpl; lia].
  - apply (tryHeartbeat_outcome (frameOf unknownIdDatagram)).
    + unfold wf_slice. simpl. lia.
    + split; [right; reflexivity | unfold len; simpl; lia].
Defined.

(** X2. The global position decoder never panics on a frame whose payload is a
    slice: it reports [true] exactly for identifier 33 with at least 28
    payload bytes, and otherwise returns three zeros with [false]. *)
Theorem tryGlobalPosition_total (f : frame) :
  wf_slice (Payload f) ->
  exists lat lon alt ok,
    tryGlobalPosition f = Ret (lat, lon, alt, ok) /\
    (ok = true <-> MsgID f = 33 /\ 28 <= len (Payload f)) /\
    (ok = false -> lat = 0%float /\ lon = 0%float /\ alt = 0%float).
Proof.
  intros Hwf.
  destruct (tryGlobalPosition_cases f Hwf) as [(G1 & G) | (G1 & G2 & G)];
    rewrite G; do 4 eexists; (split; [reflexivity|]); split.
  - split; [intros H; discriminate H | intros [H1 H2]].
    destruct G1; [contradiction | lia].
  - auto.
  - split; auto.
  - intros H; discriminate H.
Qed.

Lemma tryGlobalPosition_total_witness :
  exists lat lon alt ok,
    tryGlobalPosition (frameOf shortPositionDatagram)
    = Ret (lat, lon, alt, ok) /\
    (ok = true <->
     MsgID (frameOf shortPositionDatagram) = 33 /\
     28 <= len (Payload (frameOf shortPositionDatagram))) /\
    (ok = false -> lat = 0%float /\ lon = 0%float /\ alt = 0%float).
Proof.
  apply (tryGlobalPosition_total (frameOf shortPositionDatagram)).
  unfold wf_slice. simpl. lia.
Defined.

(** X3. The dispatch on any frame whose payload is a slice, case by case on the
    identifier and the payload length: a panic exactly for identifier 0
    with fewer than 8 bytes; a heartbeat record exactly for identifier 0 or
    a 9-byte payload, with at least 8 bytes; a position record exactly for
    identifier 33 with at least 28 bytes; no record in every other case. *)
Theorem dispatch_outcome (f : frame) :
  wf_slice (Payload f) ->
  (dispatch f = Panic <-> MsgID f = 0 /\ len (Payload f) < 8) /\
  ((exists hb a, dispatch f = Ret (Some (HEARTBEAT hb a))) <->
   (MsgID f = 0 \/ len (Payload f) = 9) /\ 8 <= len (Payload f)) /\
  ((exists lat lon alt,
      dispatch f = Ret (Some (GLOBAL_POSITION_INT lat lon alt))) <->
   MsgID f = 33 /\ 28 <= len (Payload f)) /\
  (dispatch f = Ret None <->
   MsgID f <> 0 /\ len (Payload f) <> 9 /\
   (MsgID f <> 33 \/ len (Payload f) < 28)).
Proof.
  intros Hwf.
  destruct (dispatch_cases f Hwf)
    as [(A1 & A2 & E)
       | [(B1 & B2 & hb & _ & E)
         | [(C1 & C2 & lat & lon & alt & _ & E) | (D1 & D2 & D3 & E)]]];
    rewrite E;
    refine (conj (conj _ _) (conj (conj _ _) (conj (conj _ _) (conj _ _)))).
  - auto.
  - reflexivity.
  - intros (hb & a & H); discriminate H.
  - intros [_ H]; lia.
  - intros (lat & lon & alt & H); discriminate H.
  - intros [H _]; lia.
  - intros H; discriminate H.
  - intros (H & _); contradiction.
  - intros H; discriminate H.
  - intros [_ H]; lia.
  - auto.
  - intros _. do 2 eexists; reflexivity.
  - intros (lat & lon & alt & H); discriminate H.
  - intros [H1 H2]. destruct B1; lia.
  - intros H; discriminate H.
  - intros (H1 & H2 & _). destruct B1; contradiction.
  - intros H; discriminate H.
  - intros [H _]; lia.
  - intros (hb & a & H); discriminate H.
  - intros [[H | H] _]; lia.
  - auto.
  - intros _. do 3 eexists; reflexivity.
  - intros H; discriminate H.
  - intros (H1 & H2 & [H | H]); [contradiction | lia].
  - intros H; discriminate H.
  - intros [H _]; contradiction.
  - intros (hb & a & H); discriminate H.
  - intros [[H | H] _]; contradiction.
  - intros (lat & lon & alt & H); discriminate H.
  - intros [H1 H2]. destruct D3; [contradiction | lia].
  - auto.
  - reflexivity.
Qed.

Lemma dispatch_outcome_witness :
  dispatch (frameOf emptyHeartbeatDatagram) = Panic /\
  exists lat lon alt,
    dispatch (frameOf positionDatagram)
    = Ret (Some (GLOBAL_POSITION_INT lat lon alt)).
Proof.
  split.
  - apply (dispatch_outcome (frameOf emptyHeartbeatDatagram)).
    + unfold wf_slice. simpl. lia.
    + split; [reflexivity | unfold len; simpl; lia].
  - apply (dispatch_outcome (frameOf positionDatagram)).
    + unfold wf_slice. simpl. lia.
    + split; [reflexivity | unfold len; simpl; lia].
Defined.

(** ** What the handling of a datagram depends on *)

Lemma tryHeartbeat_ext (f1 f2 : frame) :
  wf_slice (Payload f1) -> wf_slice (Payload f2) ->
  MsgID f1 = MsgID f2 ->
  len (Payload f1) = len (Payload f2) ->
  (forall i, 0 <= i < len (Payload f1) ->
             payloadByte f1 i = payloadByte f2 i) ->
  tryHeartbeat f1 = tryHeartbeat f2.
Proof.
  intros Hwf1 Hwf2 Hid Hlen Hb.
  destruct (tryHeartbeat_cases f1 Hwf1)
    as [(A1 & A2 & E1) | [(B1 & B2 & E1) | (C1 & C2 & E1)]];
  destruct (tryHeartbeat_cases f2 Hwf2)
    as [(A1' & A2' & E2) | [(B1' & B2' & E2) | (C1' & C2' & E2)]];
  rewrite E1, E2; try reflexivity; try (exfalso; lia);
    try (exfalso; destruct B1; lia); try (exfalso; destruct B1'; lia).
  rewrite !Hb by lia. reflexivity.
Qed.

Lemma tryGlobalPosition_ext (f1 f2 : frame) :
  wf_slice (Payload f1) -> wf_slice (Payload f2) ->
  MsgID f1 = MsgID f2 ->
  len (Payload f1) = len (Payload f2) ->
  (forall i, 0 <= i < len (Payload f1) ->
             payloadByte f1 i = payloadByte f2 i) ->
  tryGlobalPosition f1 = tryGlobalPosition f2.
Proof.
  intros Hwf1 Hwf2 Hid Hlen Hb.
  destruct (tryGlobalPosition_cases f1 Hwf1) as [(G1 & E1) | (G1 & G2 & E1)];
  destruct (tryGlobalPosition_cases f2 Hwf2) as [(G1' & E2) | (G1' & G2' & E2)];
  rewrite E1, E2; try reflexivity; try (exfalso; lia).
  rewrite !Hb by lia. reflexivity.
Qed.

Lemma dispatch_ext (f1 f2 : frame) :
  wf_slice (Payload f1) -> wf_slice (Payload f2) ->
  MsgID f1 = MsgID f2 ->
  len (Payload f1) = len (Payload f2) ->
  (forall i, 0 <= i < len (Payload f1) ->
             payloadByte f1 i = payloadByte f2 i) ->
  dispatch f1 = dispatch f2.
Proof.
  intros Hwf1 Hwf2 Hid Hlen Hb. unfold dispatch.
  rewrite (tryHeartbeat_ext f1 f2), (tryGlobalPosition_ext f1 f2) by assumption.
  reflexivity.
Qed.

(** The outcome for a datagram is decided by its length, its marker, its
    length byte, its three identifier bytes and its declared payload. *)
Lemma handleDatagram_ext (buf1 buf2 : slice) (n : Z) :
  datagram buf1 n -> datagram buf2 n ->
  byte_at buf1 0 = byte_at buf2 0 ->
  byte_at buf1 1 = byte_at buf2 1 ->
  byte_at buf1 7 = byte_at buf2 7 ->
  byte_at buf1 8 = byte_at buf2 8 ->
  byte_at buf1 9 = byte_at buf2 9 ->
  (forall i, 10 <= i < 10 + declaredLength buf1 -> i < n ->
             byte_at buf1 i = byte_at buf2 i) ->
  handleDatagram buf1 n = handleDatagram buf2 n.
Proof.
  intros Hd1 Hd2 H0 H1 H7 H8 H9 Hp. unfold handleDatagram.
  rewrite (parseFrame_refines buf1 n Hd1), (parseFrame_refines buf2 n Hd2).
  unfold decodeFrame_spec, declaredLength in *.
  rewrite <- H0, <- H1, <- H7, <- H8, <- H9.
  destruct (n <? 10 + 2); [reflexivity|].
  destruct (negb (Byte.eqb (byte_at buf1 0) xfd)); [reflexivity|].
  destruct (n <? u8 (byte_at buf1 1) + 10 + 2) eqn:Hinc; [reflexivity|].
  apply Z.ltb_ge in Hinc. cbn [forget_reason bind].
  destruct Hd1 as ((Ho1 & Hl1 & Ha1) & Hn1).
  destruct Hd2 as ((Ho2 & Hl2 & Ha2) & Hn2).
  pose proof (u8_range (byte_at buf1 1)) as Hpl.
  unfold len, cap in *.
  apply dispatch_ext; cbn [Payload MsgID]; try reflexivity.
  - unfold wf_slice; cbn [s_arr s_off s_len s_cap]. lia.
  - unfold wf_slice; cbn [s_arr s_off s_len s_cap]. lia.
  - unfold len; cbn [s_len]. intros i Hi.
    unfold payloadByte; cbn [Payload]. rewrite !byte_at_sub. apply Hp; lia.
Qed.

(** The receive buffer after a receive: the datagram, cut to the buffer's
    length, sits at its start, and the slice header is unchanged. *)
Lemma ReadFromUDP_spec (buf : slice) (d : list byte) :
  wf_slice buf ->
  let n := Z.min (Z.of_nat (List.length d)) (len buf) in
  snd (ReadFromUDP buf d) = n /\
  datagram (fst (ReadFromUDP buf d)) n /\
  len (fst (ReadFromUDP buf d)) = len buf /\
  (forall i, 0 <= i < n ->
             byte_at (fst (ReadFromUDP buf d)) i = nth (Z.to_nat i) d x00).
Proof.
  intros (Hoff & Hlen & Harr) n. unfold ReadFromUDP. fold n.
  cbn [fst snd]. unfold datagram, wf_slice, len, cap in *.
  cbn [s_arr s_off s_len s_cap].
  assert (Hn : 0 <= n <= s_len buf) by (unfold n; lia).
  assert (Hnd : n <= Z.of_nat (List.length d)) by (unfold n; lia).
  refine (conj eq_refl (conj _ (conj eq_refl _))).
  - rewrite !length_app, !length_firstn, length_skipn. lia.
  - intros i Hi. unfold byte_at; cbn [s_arr s_off].
    rewrite app_nth2 by (rewrite length_firstn; lia).
    rewrite length_firstn.
    replace (Z.to_nat (s_off buf + i)
             - Nat.min (Z.to_nat (s_off buf)) (List.length (s_arr buf)))%nat
      with (Z.to_nat i) by lia.
    rewrite app_nth1 by (rewrite length_firstn; lia).
    rewrite nth_firstn.
    replace (Z.to_nat i <? Z.to_nat n)%nat with true
      by (symmetry; apply Nat.ltb_lt; lia).
    reflexivity.
Qed.

Lemma byte_at_of_list (d : list byte) (i : Z) :
  0 <= i -> byte_at (of_list d) i = nth (Z.to_nat i) d x00.
Proof.
  intros Hi. unfold byte_at, of_list; cbn [s_arr s_off].
  now rewrite Z.add_0_l.
Qed.

(** Handling a datagram in the receive buffer gives what handling it alone
    gives: what the buffer held before does not matter. *)
Lemma handleDatagram_received (buf : slice) (d : list byte) :
  wf_slice buf ->
  let d' := firstn (Z.to_nat (len buf)) d in
  handleDatagram (fst (ReadFromUDP buf d)) (snd (ReadFromUDP buf d))
  = handleDatagram (of_list d') (Z.of_nat (List.length d')).
Proof.
  intros Hwf d'.
  destruct (ReadFromUDP_spec buf d Hwf) as (Hn & Hd & _ & Hb).
  rewrite Hn.
  assert (Hlen : 0 <= len buf)
    by (destruct Hwf as (_ & H & _); unfold len; lia).
  assert (Hd' : Z.of_nat (List.length d')
                = Z.min (Z.of_nat (List.length d)) (len buf))
    by (unfold d'; rewrite length_firstn; lia).
  rewrite Hd'.
  assert (Hb' : forall i, 0 <= i < Z.min (Z.of_nat (List.length d)) (len buf) ->
                byte_at (fst (ReadFromUDP buf d)) i = byte_at (of_list d') i).
  { intros i Hi. rewrite (Hb i Hi), byte_at_of_list by lia.
    unfold d'. rewrite nth_firstn.
    replace (Z.to_nat i <? Z.to_nat (len buf))%nat with true
      by (symmetry; apply Nat.ltb_lt; lia).
    reflexivity. }
  pose proof (datagram_of_list d') as Hdl. rewrite Hd' in Hdl.
  destruct (Z_lt_le_dec (Z.min (Z.of_nat (List.length d)) (len buf)) 12)
    as [Hs | Hs].
  - unfold handleDatagram.
    rewrite (parseFrame_refines _ _ Hd), (parseFrame_refines _ _ Hdl).
    unfold decodeFrame_spec.
    replace (_ <? 10 + 2) with true by (symmetry; apply Z.ltb_lt; lia).
    reflexivity.
  - apply handleDatagram_ext; try assumption; try (apply Hb'; lia).
    intros i Hi Hin. apply Hb'. lia.
Qed.

(** X4. Two datagrams of the same length that agree on the marker, the length
    byte, the three identifier bytes and the declared payload are handled
    alike: header bytes 2 to 6, among them the sender's system and
    component identifiers, the two trailer bytes, which are never verified,
    and whatever follows the frame have no influence on the outcome. *)
Theorem handleDatagram_ignored_bytes (d1 d2 : list byte) :
  List.length d1 = List.length d2 ->
  nth 0 d1 x00 = nth 0 d2 x00 ->
  nth 1 d1 x00 = nth 1 d2 x00 ->
  nth 7 d1 x00 = nth 7 d2 x00 ->
  nth 8 d1 x00 = nth 8 d2 x00 ->
  nth 9 d1 x00 = nth 9 d2 x00 ->
  (forall i : nat,
      (10 <= i < 10 + Z.to_nat (u8 (nth 1 d1 x00)))%nat ->
      nth i d1 x00 = nth i d2 x00) ->
  handleDatagram (of_list d1) (Z.of_nat (List.length d1))
  = handleDatagram (of_list d2) (Z.of_nat (List.length d2)).
Proof.
  intros Hlen H0 H1 H7 H8 H9 Hp.
  pose proof (datagram_of_list d1) as Hd1.
  pose proof (datagram_of_list d2) as Hd2.
  rewrite <- Hlen in *.
  apply handleDatagram_ext; try assumption;
    try (rewrite !byte_at_of_list by lia; assumption).
  intros i Hi _. unfold declaredLength in Hi.
  rewrite byte_at_of_list in Hi by lia. change (Z.to_nat 1) with 1%nat in Hi.
  rewrite !byte_at_of_list by lia. apply Hp. lia.
Qed.

Lemma handleDatagram_ignored_bytes_witness :
  handleDatagram (of_list heartbeatDatagram) 21
  = handleDatagram
      (of_list (encodeFrame x05 x06 x07 x2a x0b 0
                  (encodeHeartbeat 0x01020304 x02 x03 x80 x04 x03) xde xad))
      21.
Proof.
  apply (handleDatagram_ignored_bytes heartbeatDatagram
           (encodeFrame x05 x06 x07 x2a x0b 0
              (encodeHeartbeat 0x01020304 x02 x03 x80 x04 x03) xde xad));
    try reflexivity.
  intros i Hi.
  do 19 (destruct i as [| i]; [try reflexivity; exfalso; simpl in Hi; lia |]).
  exfalso. simpl in Hi. lia.
Defined.

(** ** The telemetry loop and its buffer *)

Lemma iteration_ext (buf1 buf2 : slice) (ev : event) :
  wf_slice buf1 -> wf_slice buf2 -> len buf1 = len buf2 ->
  match iteration buf1 ev, iteration buf2 ev with
  | Panic, Panic => True
  | Ret (b1, r1, c1), Ret (b2, r2, c2) =>
      r1 = r2 /\ c1 = c2 /\ wf_slice b1 /\ wf_slice b2 /\ len b1 = len b2
  | _, _ => False
  end.
Proof.
  intros Hwf1 Hwf2 Hlen. unfold iteration.
  destruct (ev_recv ev) as [d | |].
  - pose proof (handleDatagram_received buf1 d Hwf1) as E1.
    pose proof (handleDatagram_received buf2 d Hwf2) as E2.
    cbv zeta in E1, E2. rewrite <- Hlen in E2. rewrite <- E2 in E1.
    destruct (ReadFromUDP_spec buf1 d Hwf1) as (_ & (W1 & _) & L1 & _).
    destruct (ReadFromUDP_spec buf2 d Hwf2) as (_ & (W2 & _) & L2 & _).
    destruct (ReadFromUDP buf1 d) as [b1 n1].
    destruct (ReadFromUDP buf2 d) as [b2 n2].
    cbn [fst snd] in *. rewrite E1.
    destruct (handleDatagram b2 n2); cbn [bind]; [|exact I].
    refine (conj eq_refl (conj eq_refl (conj W1 (conj W2 _)))). congruence.
  - destruct (ev_done ev); auto.
  - destruct (ev_done ev); auto.
Qed.

Lemma readLoop_ext (evs : list event) :
  forall buf1 buf2 : slice,
    wf_slice buf1 -> wf_slice buf2 -> len buf1 = len buf2 ->
    readLoop buf1 evs = readLoop buf2 evs.
Proof.
  induction evs as [| ev rest IH]; intros buf1 buf2 Hwf1 Hwf2 Hlen;
    [reflexivity|].
  cbn [readLoop].
  pose proof (iteration_ext buf1 buf2 ev Hwf1 Hwf2 Hlen) as H.
  destruct (iteration buf1 ev) as [[[b1 r1] c1] |];
    destruct (iteration buf2 ev) as [[[b2 r2] c2] |];
    try contradiction; [|reflexivity].
  destruct H as (-> & -> & W1 & W2 & L).
  destruct c2; [|reflexivity].
  now rewrite (IH b1 b2 W1 W2 L).
Qed.

Lemma wf_make (k : nat) : wf_slice (make k) /\ len (make k) = Z.of_nat k.
Proof.
  unfold wf_slice, make, len. cbn [s_arr s_off s_len s_cap].
  rewrite repeat_length. lia.
Qed.

(** X5. What the telemetry loop prints, and how it ends, does not depend on the
    contents of its buffer at the start: any buffer of 2048 bytes gives the
    run that the zeroed buffer of [main] gives. *)
Theorem readLoop_buffer_independent (buf : slice) (evs : list event) :
  wf_slice buf -> len buf = 2048 ->
  readLoop buf evs = receiveTask evs.
Proof.
  intros Hwf Hlen. unfold receiveTask.
  destruct (wf_make 2048) as [Hm Hl].
  apply readLoop_ext; [exact Hwf | exact Hm |].
  rewrite Hlen, Hl. reflexivity.
Qed.

Lemma readLoop_buffer_independent_witness :
  readLoop (of_list (repeat xff 2048))
    [mkEvent (Datagram heartbeatDatagram) false; mkEvent Failure true]
  = receiveTask
      [mkEvent (Datagram heartbeatDatagram) false; mkEvent Failure true].
Proof.
  apply (readLoop_buffer_independent (of_list (repeat xff 2048))).
  - unfold wf_slice, of_list. cbn [s_arr s_off s_len s_cap].
    rewrite repeat_length. lia.
  - unfold len, of_list. cbn [s_len]. rewrite repeat_length. reflexivity.
Defined.

(** X6. The loop keeps nothing from one datagram to the next: after a received
    datagram it prints what handling that datagram alone gives, and goes on
    as if it had started afresh with the same buffer. *)
Theorem readLoop_memoryless (buf : slice) (d : list byte) (done : bool)
    (rest : list event) :
  wf_slice buf ->
  let d' := firstn (Z.to_nat (len buf)) d in
  readLoop buf (mkEvent (Datagram d) done :: rest)
  = match handleDatagram (of_list d') (Z.of_nat (List.length d')) with
    | Panic => ([], Crashed)
    | Ret r =>
        let '(out, e) := readLoop buf rest in
        (match r with Some x => x :: out | None => out end, e)
    end.
Proof.
  intros Hwf d'. cbn [readLoop].
  pose proof (iteration_datagram buf d done) as Hit.
  pose proof (handleDatagram_received buf d Hwf) as Hrec.
  destruct (ReadFromUDP_spec buf d Hwf) as (_ & (W & _) & L & _).
  destruct (ReadFromUDP buf d) as [b n]. cbn [fst snd] in *.
  rewrite Hit, Hrec. fold d'.
  destruct (handleDatagram (of_list d') (Z.of_nat (List.length d')));
    [|reflexivity].
  now rewrite (readLoop_ext rest b buf W Hwf L).
Qed.

Lemma readLoop_memoryless_witness :
  readLoop (make 2048)
    [mkEvent (Datagram heartbeatDatagram) false;
     mkEvent (Datagram unknownIdDatagram) false]
  = ([HEARTBEAT (mkHeartbeat x02 x03 x80 0x01020304 x04) true;
      HEARTBEAT (mkHeartbeat x55 x66 x77 0x44332211 x88) false],
     Receiving).
Proof.
  rewrite (readLoop_memoryless (make 2048) heartbeatDatagram false
             [mkEvent (Datagram unknownIdDatagram) false]
             (proj1 (wf_make 2048))).
  rewrite (readLoop_memoryless (make 2048) unknownIdDatagram false []
             (proj1 (wf_make 2048))).
  reflexivity.
Defined.

(** ** When the telemetry loop crashes, returns and stops *)

Lemma byte_eqb_eq (b c : byte) : Byte.eqb b c = true <-> b = c.
Proof.
  split; [apply Byte.byte_dec_bl | apply Byte.byte_dec_lb].
Qed.

Lemma u8_zero (b : byte) : u8 b = 0 <-> b = x00.
Proof.
  split; [|intros ->; reflexivity].
  destruct b; intros H; try reflexivity; discriminate H.
Qed.

Lemma msgid_zero (b7 b8 b9 : byte) :
  Z.lor (Z.lor (u8 b7) (Z.shiftl (u8 b8) 8)) (Z.shiftl (u8 b9) 16) = 0 <->
  b7 = x00 /\ b8 = x00 /\ b9 = x00.
Proof.
  destruct (msgid_lor_value b7 b8 b9) as [-> _].
  pose proof (u8_range b7). pose proof (u8_range b8). pose proof (u8_range b9).
  rewrite <- !u8_zero. lia.
Qed.

Lemma shortHeartbeatFrame_spec (d : list byte) :
  shortHeartbeatFrame d = true <->
  12 <= Z.of_nat (List.length d) /\
  nth 0 d x00 = xfd /\
  10 + u8 (nth 1 d x00) + 2 <= Z.of_nat (List.length d) /\
  u8 (nth 1 d x00) < 8 /\
  nth 7 d x00 = x00 /\ nth 8 d x00 = x00 /\ nth 9 d x00 = x00.
Proof.
  unfold shortHeartbeatFrame.
  rewrite !andb_true_iff, !Z.leb_le, Z.ltb_lt, !byte_eqb_eq. tauto.
Qed.

Lemma dispatch_panic_cond (f : frame) :
  wf_slice (Payload f) ->
  dispatch f = Panic <-> MsgID f = 0 /\ len (Payload f) < 8.
Proof.
  intros Hwf.
  destruct (dispatch_cases f Hwf)
    as [(A1 & A2 & E)
       | [(B1 & B2 & hb & _ & E)
         | [(C1 & C2 & lat & lon & alt & _ & E) | (D1 & D2 & D3 & E)]]];
    rewrite E; split; auto; try (intros H; discriminate H); intros [H1 H2];
    lia.
Qed.

(** A datagram on its own makes the handling panic exactly when it is a
    short heartbeat frame. *)
Lemma handleDatagram_panic_cond (d : list byte) :
  handleDatagram (of_list d) (Z.of_nat (List.length d)) = Panic <->
  shortHeartbeatFrame d = true.
Proof.
  rewrite shortHeartbeatFrame_spec. unfold handleDatagram.
  rewrite (parseFrame_refines _ _ (datagram_of_list d)).
  unfold decodeFrame_spec, declaredLength.
  rewrite !byte_at_of_list by lia.
  change (Z.to_nat 0) with 0%nat. change (Z.to_nat 1) with 1%nat.
  change (Z.to_nat 5) with 5%nat. change (Z.to_nat 6) with 6%nat.
  change (Z.to_nat 7) with 7%nat. change (Z.to_nat 8) with 8%nat.
  change (Z.to_nat 9) with 9%nat.
  pose proof (u8_range (nth 1 d x00)) as Hpl.
  destruct (Z.of_nat (List.length d) <? 10 + 2) eqn:H1.
  { apply Z.ltb_lt in H1. cbn [forget_reason bind].
    split; [intros H; discriminate H | intros (H & _); lia]. }
  apply Z.ltb_ge in H1.
  destruct (Byte.eqb (nth 0 d x00) xfd) eqn:H2; cbn [negb].
  2:{ cbn [forget_reason bind].
      split; [intros H; discriminate H | intros (_ & H & _)].
      apply byte_eqb_eq in H. congruence. }
  apply byte_eqb_eq in H2.
  destruct (Z.of_nat (List.length d) <? u8 (nth 1 d x00) + 10 + 2) eqn:H3.
  { apply Z.ltb_lt in H3. cbn [forget_reason bind].
    split; [intros H; discriminate H | intros (_ & _ & H & _); lia]. }
  apply Z.ltb_ge in H3. cbn [forget_reason bind].
  rewrite dispatch_panic_cond.
  - cbn [MsgID Payload]. unfold len; cbn [s_len].
    rewrite msgid_zero. intuition lia.
  - unfold wf_slice, of_list, cap; cbn [Payload s_arr s_off s_len s_cap]. lia.
Qed.

Lemma shortHeartbeatFrame_firstn (k : nat) (d : list byte) :
  (267 <= k)%nat ->
  shortHeartbeatFrame (firstn k d) = shortHeartbeatFrame d.
Proof.
  intros Hk. apply eq_true_iff_eq.
  rewrite !shortHeartbeatFrame_spec, length_firstn, !nth_firstn.
  replace (0 <? k)%nat with true by (symmetry; apply Nat.ltb_lt; lia).
  replace (1 <? k)%nat with true by (symmetry; apply Nat.ltb_lt; lia).
  replace (7 <? k)%nat with true by (symmetry; apply Nat.ltb_lt; lia).
  replace (8 <? k)%nat with true by (symmetry; apply Nat.ltb_lt; lia).
  replace (9 <? k)%nat with true by (symmetry; apply Nat.ltb_lt; lia).
  pose proof (u8_range (nth 1 d x00)) as Hpl.
  intuition lia.
Qed.

(** X7. One iteration of the telemetry loop, for a buffer that can hold a whole
    frame: after a successful receive it panics exactly when the datagram
    is a short heartbeat frame, that is a complete version-2 frame with
    identifier 0 and fewer than eight payload bytes; in every other case it
    goes on to the next iteration. *)
Theorem iteration_panics_iff (buf : slice) (d : list byte) (done : bool) :
  wf_slice buf -> 267 <= len buf ->
  (iteration buf (mkEvent (Datagram d) done) = Panic <->
   shortHeartbeatFrame d = true) /\
  (shortHeartbeatFrame d = false ->
   exists buf' r,
     iteration buf (mkEvent (Datagram d) done) = Ret (buf', r, Continue)).
Proof.
  intros Hwf Hlen.
  pose proof (iteration_datagram buf d done) as Hit.
  pose proof (handleDatagram_received buf d Hwf) as Hrec. cbv zeta in Hrec.
  pose proof (handleDatagram_panic_cond (firstn (Z.to_nat (len buf)) d))
    as Hp.
  rewrite shortHeartbeatFrame_firstn in Hp by lia.
  destruct (ReadFromUDP buf d) as [b n]. cbn [fst snd] in Hrec.
  rewrite Hit, Hrec. destruct Hp as [Hp1 Hp2]. clear Hit Hrec.
  destruct (handleDatagram (of_list _) _) as [r |].
  - split.
    + split; [intros H; discriminate H | intros H].
      specialize (Hp2 H). discriminate Hp2.
    + intros _. now exists b, r.
  - split.
    + split; [intros _; exact (Hp1 eq_refl) | reflexivity].
    + intros H. rewrite (Hp1 eq_refl) in H. discriminate H.
Qed.

Lemma iteration_panics_iff_witness :
  iteration (make 2048) (mkEvent (Datagram emptyHeartbeatDatagram) true)
  = Panic.
Proof.
  apply (iteration_panics_iff (make 2048) emptyHeartbeatDatagram true).
  - exact (proj1 (wf_make 2048)).
  - unfold len. simpl. lia.
  - reflexivity.
Defined.

Lemma iteration_safe (buf : slice) (ev : event) :
  wf_slice buf -> 267 <= len buf ->
  (forall d, ev_recv ev = Datagram d -> shortHeartbeatFrame d = false) ->
  exists buf' r c,
    iteration buf ev = Ret (buf', r, c) /\ wf_slice buf' /\ 267 <= len buf'.
Proof.
  intros Hwf Hlen Hsafe. unfold iteration.
  destruct (ev_recv ev) as [d | |] eqn:Er.
  - pose proof (handleDatagram_received buf d Hwf) as Hrec. cbv zeta in Hrec.
    pose proof (handleDatagram_panic_cond (firstn (Z.to_nat (len buf)) d))
      as Hp.
    rewrite shortHeartbeatFrame_firstn, (Hsafe d eq_refl) in Hp by lia.
    destruct (ReadFromUDP_spec buf d Hwf) as (_ & (W & _) & L & _).
    destruct (ReadFromUDP buf d) as [b n]. cbn [fst snd] in *.
    rewrite Hrec. clear Hrec.
    destruct (handleDatagram (of_list _) _) as [r |].
    + cbn [bind]. exists b, r, Continue.
      refine (conj eq_refl (conj W _)). lia.
    + exfalso. destruct Hp as [Hp1 _]. specialize (Hp1 eq_refl).
      discriminate Hp1.
  - destruct (ev_done ev); do 3 eexists; eauto.
  - destruct (ev_done ev); do 3 eexists; eauto.
Qed.

(** X8. A run of the telemetry loop that crashed received a short heartbeat
    frame: on a sequence of receive outcomes without such a datagram the
    loop never crashes. *)
Theorem readLoop_crash_cause (evs : list event) :
  forall buf : slice,
    wf_slice buf -> 267 <= len buf ->
    snd (readLoop buf evs) = Crashed ->
    exists ev d, In ev evs /\ ev_recv ev = Datagram d /\
                 shortHeartbeatFrame d = true.
Proof.
  induction evs as [| ev rest IH]; intros buf Hwf Hlen H;
    cbn [readLoop] in H; [discriminate H|].
  destruct (ev_recv ev) as [d | |] eqn:Er.
  - destruct (shortHeartbeatFrame d) eqn:Hs.
    + exists ev, d. repeat split; auto. now left.
    + destruct (iteration_safe buf ev Hwf Hlen) as (b & r & c & E & W & L).
      { intros d' Hd'. rewrite Er in Hd'. now inversion Hd'; subst. }
      rewrite E in H. destruct c; [|discriminate H].
      destruct (readLoop b rest) as [out e] eqn:E'. cbn [snd] in H.
      destruct (IH b W L) as (ev' & d' & Hin & Hev); [now rewrite E'|].
      exists ev', d'. split; [now right | exact Hev].
  - destruct (iteration_safe buf ev Hwf Hlen) as (b & r & c & E & W & L).
    { intros d' Hd'. rewrite Er in Hd'. discriminate Hd'. }
    rewrite E in H. destruct c; [|discriminate H].
    destruct (readLoop b rest) as [out e] eqn:E'. cbn [snd] in H.
    destruct (IH b W L) as (ev' & d' & Hin & Hev); [now rewrite E'|].
    exists ev', d'. split; [now right | exact Hev].
  - destruct (iteration_safe buf ev Hwf Hlen) as (b & r & c & E & W & L).
    { intros d' Hd'. rewrite Er in Hd'. discriminate Hd'. }
    rewrite E in H. destruct c; [|discriminate H].
    destruct (readLoop b rest) as [out e] eqn:E'. cbn [snd] in H.
    destruct (IH b W L) as (ev' & d' & Hin & Hev); [now rewrite E'|].
    exists ev', d'. split; [now right | exact Hev].
Qed.

Lemma readLoop_crash_cause_witness :
  exists ev d,
    In ev [mkEvent (Datagram heartbeatDatagram) false;
           mkEvent (Datagram emptyHeartbeatDatagram) false] /\
    ev_recv ev = Datagram d /\ shortHeartbeatFrame d = true.
Proof.
  apply (readLoop_crash_cause _ (make 2048)).
  - exact (proj1 (wf_make 2048)).
  - unfold len. simpl. lia.
  - reflexivity.
Defined.



Lemma readLoop_returned_witness :
  exists ev,
    In ev [mkEvent (Datagram heartbeatDatagram) false; mkEvent Timeout true]
    /\ (ev_recv ev = Timeout \/ ev_recv ev = Failure) /\ ev_done ev = true.
Proof.
  apply (readLoop_returned _ (make 2048)
           [HEARTBEAT (mkHeartbeat x02 x03 x80 0x01020304 x04) true]).
  reflexivity.
Defined.

(** ** The earlier decoder and its loop *)

Lemma parseMAVLinkPacket_cases (buf : slice) (n : Z) :
  datagram buf n ->
  let id := u8 (byte_at buf 7) + 2 ^ 8 * u8 (byte_at buf 8)
            + 2 ^ 16 * u8 (byte_at buf 9) in
  ((n < 10 \/ byte_at buf 0 <> xfd) /\
   parseMAVLinkPacket buf n
   = Ret (inr "not a valid MAVLink v2 packet"%string)) \/
  (10 <= n /\ byte_at buf 0 = xfd /\ (id <> 0 \/ declaredLength buf <> 9) /\
   parseMAVLinkPacket buf n = Ret (inr "not a HEARTBEAT message"%string)) \/
  (10 <= n < 21 /\ byte_at buf 0 = xfd /\ id = 0 /\ declaredLength buf = 9 /\
   parseMAVLinkPacket buf n = Ret (inr "packet too short"%string)) \/
  (21 <= n /\ byte_at buf 0 = xfd /\ id = 0 /\ declaredLength buf = 9 /\
   parseMAVLinkPacket buf n
   = Ret (inl (mkHeartbeat (byte_at buf 14) (byte_at buf 15) (byte_at buf 16)
                 (le_uint32 (byte_at buf 10) (byte_at buf 11)
                            (byte_at buf 12) (byte_at buf 13))
                 (byte_at buf 17)))).
Proof.
  intros [(Hoff & Hlen & Harr) Hn] id. unfold parseMAVLinkPacket.
  destruct (n <? 10) eqn:E10; cbn [bind].
  { apply Z.ltb_lt in E10. left. split; [now left | reflexivity]. }
  apply Z.ltb_ge in E10.
  rewrite index_in by lia. cbn [bind].
  destruct (Byte.eqb (byte_at buf 0) xfd) eqn:Em; cbn [negb].
  2:{ left. split; [right | reflexivity].
      intros H. apply byte_eqb_eq in H. congruence. }
  apply byte_eqb_eq in Em. right.
  rewrite !index_in by lia. cbn [bind].
  rewrite msgid_value. fold id. fold (declaredLength buf).
  destruct (negb (id =? 0) || negb (declaredLength buf =? 9)) eqn:G.
  { left. repeat split; auto.
    apply orb_true_iff in G. destruct G as [G | G];
      apply negb_true_iff, Z.eqb_neq in G; auto. }
  right.
  apply orb_false_elim in G. destruct G as [Gid Gpl].
  apply negb_false_iff, Z.eqb_eq in Gid, Gpl.
  destruct (n <? 10 + 9 + 2) eqn:E21.
  { apply Z.ltb_lt in E21. left. repeat split; auto; lia. }
  apply Z.ltb_ge in E21. right.
  rewrite reslice_in by (unfold cap, len in *; lia). cbn [bind].
  rewrite !index_in by (unfold len; cbn [s_len]; lia). cbn [bind].
  rewrite reslice_in by (unfold cap; cbn [s_cap]; unfold cap, len in *; lia).
  cbn [bind].
  rewrite Uint32_in by (unfold len; cbn [s_len]; lia). cbn [bind].
  rewrite !byte_at_sub.
  refine (conj E21 (conj Em (conj Gid (conj Gpl _)))). reflexivity.
Qed.

Lemma msgid_sum_zero (b7 b8 b9 : byte) :
  u8 b7 + 2 ^ 8 * u8 b8 + 2 ^ 16 * u8 b9 = 0 <->
  b7 = x00 /\ b8 = x00 /\ b9 = x00.
Proof.
  pose proof (u8_range b7). pose proof (u8_range b8). pose proof (u8_range b9).
  rewrite <- !u8_zero. lia.
Qed.

(** X11. The earlier decoder on a datagram of length [n]: it never panics; it
    returns a heartbeat exactly when [n >= 21], the first byte is 0xFD, the
    length byte is 9 and the three identifier bytes are 0; it reports an
    invalid packet exactly when [n < 10] or the first byte is not 0xFD, and
    a packet too short exactly for a nine-byte heartbeat header with
    [10 <= n < 21]. *)
Theorem parseMAVLinkPacket_outcome (buf : slice) (n : Z) :
  datagram buf n ->
  (exists r, parseMAVLinkPacket buf n = Ret r) /\
  ((exists hb, parseMAVLinkPacket buf n = Ret (inl hb)) <->
   21 <= n /\ byte_at buf 0 = xfd /\ declaredLength buf = 9 /\
   byte_at buf 7 = x00 /\ byte_at buf 8 = x00 /\ byte_at buf 9 = x00) /\
  (parseMAVLinkPacket buf n = Ret (inr "not a valid MAVLink v2 packet"%string)
   <-> n < 10 \/ byte_at buf 0 <> xfd) /\
  (parseMAVLinkPacket buf n = Ret (inr "packet too short"%string) <->
   10 <= n < 21 /\ byte_at buf 0 = xfd /\ declaredLength buf = 9 /\
   byte_at buf 7 = x00 /\ byte_at buf 8 = x00 /\ byte_at buf 9 = x00).
Proof.
  intros Hd.
  pose proof (msgid_sum_zero (byte_at buf 7) (byte_at buf 8) (byte_at buf 9))
    as Hz.
  destruct (parseMAVLinkPacket_cases buf n Hd)
    as [(A & E) | [(B1 & B2 & B3 & E) | [(C1 & C2 & C3 & C4 & E)
                                        | (D1 & D2 & D3 & D4 & E)]]];
    cbv zeta in *; rewrite E;
    refine (conj (ex_intro _ _ eq_refl)
              (conj (conj _ _) (conj (conj _ _) (conj _ _)))).
  - intros [hb H]; discriminate H.
  - intros (H1 & H2 & _). destruct A; [lia | contradiction].
  - auto.
  - reflexivity.
  - intros H; discriminate H.
  - intros (H1 & H2 & _). destruct A; [lia | contradiction].
  - intros [hb H]; discriminate H.
  - intros (_ & _ & H1 & H2). destruct B3; [tauto | contradiction].
  - intros H; discriminate H.
  - intros [H | H]; [lia | contradiction].
  - intros H; discriminate H.
  - intros (_ & _ & H1 & H2). destruct B3; [tauto | contradiction].
  - intros [hb H]; discriminate H.
  - intros (H & _); lia.
  - intros H; discriminate H.
  - intros [H | H]; [lia | contradiction].
  - intros _. tauto.
  - reflexivity.
  - intros _. tauto.
  - intros _. eexists; reflexivity.
  - intros H; discriminate H.
  - intros [H | H]; [lia | contradiction].
  - intros H; discriminate H.
  - intros (H & _); lia.
Qed.

Lemma parseMAVLinkPacket_outcome_witness :
  exists hb, parseMAVLinkPacket (of_list heartbeatDatagram) 21 = Ret (inl hb).
Proof.
  apply (parseMAVLinkPacket_outcome (of_list heartbeatDatagram) 21).
  - exact (datagram_of_list heartbeatDatagram).
  - repeat split; reflexivity || (simpl; lia).
Defined.

Lemma parseMAVLinkPacket_heartbeat_witness :
  exists f,
    parseFrame (of_list heartbeatDatagram) 21 = Ret (f, true) /\
    MsgID f = 0 /\ len (Payload f) = 9 /\
    tryHeartbeat f = Ret (mkHeartbeat x02 x03 x80 0x01020304 x04, true).
Proof.
  apply (parseMAVLinkPacket_heartbeat (of_list heartbeatDatagram) 21).
  - exact (datagram_of_list heartbeatDatagram).
  - reflexivity.
Defined.

(** X13. The two decoders compared on a datagram the frame decoder accepts with
    identifier 0: with a nine-byte payload the earlier decoder returns the
    heartbeat [tryHeartbeat] returns; with any other payload length it says
    the packet is not a heartbeat. *)
Theorem decoders_compared (buf : slice) (n : Z) (f : frame) :
  datagram buf n ->
  parseFrame buf n = Ret (f, true) ->
  MsgID f = 0 ->
  (Len f = 9 ->
   exists hb, tryHeartbeat f = Ret (hb, true) /\
              parseMAVLinkPacket buf n = Ret (inl hb)) /\
  (Len f <> 9 ->
   parseMAVLinkPacket buf n = Ret (inr "not a HEARTBEAT message"%string)).
Proof.
  intros Hd Hp Hid.
  destruct (parseFrame_inv buf n f Hd Hp) as (Hn & Hm & Htot & Hf).
  assert (Hwf : wf_slice (Payload f) /\ len (Payload f) = Len f).
  { destruct (validated_payload f) as (W & L & _); [|now split].
    now exists buf, n. }
  destruct Hwf as [Hwf HL].
  pose proof (msgid_lor_value (byte_at buf 7) (byte_at buf 8) (byte_at buf 9))
    as [Hv _].
  assert (Hid' : u8 (byte_at buf 7) + 2 ^ 8 * u8 (byte_at buf 8)
                 + 2 ^ 16 * u8 (byte_at buf 9) = 0).
  { rewrite <- Hv. rewrite Hf in Hid. exact Hid. }
  assert (HLen : Len f = declaredLength buf) by (rewrite Hf; reflexivity).
  destruct (parseMAVLinkPacket_cases buf n Hd)
    as [(A & E) | [(B1 & B2 & B3 & E) | [(C1 & C2 & C3 & C4 & E)
                                        | (D1 & D2 & D3 & D4 & E)]]];
    cbv zeta in *.
  - exfalso. destruct A; [lia | contradiction].
  - split; [|intros _; exact E].
    intros H9. exfalso. destruct B3; [contradiction | congruence].
  - exfalso. lia.
  - split; [|intros H; congruence].
    intros H9. eexists. split; [|exact E].
    rewrite (tryHeartbeat_decodes f Hwf (or_introl Hid)) by lia.
    unfold payloadByte. rewrite Hf. cbn [Payload]. rewrite !byte_at_sub.
    reflexivity.
Qed.

Lemma decoders_compared_witness :
  parseMAVLinkPacket (of_list otherHeartbeatDatagram) 22
  = Ret (inr "not a HEARTBEAT message"%string).
Proof.
  apply (decoders_compared (of_list otherHeartbeatDatagram) 22
           (frameOf otherHeartbeatDatagram)).
  - exact (datagram_of_list otherHeartbeatDatagram).
  - reflexivity.
  - reflexivity.
  - intros H. discriminate H.
Defined.

Lemma snifferIteration_safe (buf : slice) (ev : event) :
  wf_slice buf ->
  exists buf' r c,
    snifferIteration buf ev = Ret (buf', r, c) /\ wf_slice buf' /\
    (c = Return ->
     (ev_recv ev = Timeout \/ ev_recv ev = Failure) /\ ev_done ev = true).
Proof.
  intros Hwf. unfold snifferIteration.
  destruct (ev_recv ev) as [d | |].
  - destruct (ReadFromUDP_spec buf d Hwf) as (Hn & Hd & _).
    destruct (ReadFromUDP buf d) as [b n]. cbn [fst snd] in *. subst n.
    pose proof (parseMAVLinkPacket_cases b _ Hd) as Hc. cbv zeta in Hc.
    destruct Hd as [W _].
    destruct Hc
      as [(A & E) | [(B1 & B2 & B3 & E) | [(C1 & C2 & C3 & C4 & E)
                                          | (D1 & D2 & D3 & D4 & E)]]];
      rewrite E; cbn [bind]; do 3 eexists;
      (split; [reflexivity | split; [exact W | intros H; discriminate H]]).
  - destruct (ev_done ev); do 3 eexists;
      (split; [reflexivity | split; [exact Hwf|]]); auto.
    intros H; discriminate H.
  - destruct (ev_done ev); do 3 eexists;
      (split; [reflexivity | split; [exact Hwf|]]); auto.
    intros H; discriminate H.
Qed.

(** X14. The loop of the earlier sniffer never crashes, whatever it receives,
    and it returns only from an iteration whose receive failed and which
    observed the cancellation signal. *)
Theorem sniffer_never_crashes (evs : list event) :
  forall buf : slice,
    wf_slice buf ->
    snd (loopOver snifferIteration buf evs) <> Crashed /\
    (snd (loopOver snifferIteration buf evs) = Returned ->
     exists ev, In ev evs /\
                (ev_recv ev = Timeout \/ ev_recv ev = Failure) /\
                ev_done ev = true).
Proof.
  induction evs as [| ev rest IH]; intros buf Hwf; cbn [loopOver].
  - split; intros H; discriminate H.
  - destruct (snifferIteration_safe buf ev Hwf) as (b & r & c & E & W & Hc).
    rewrite E. destruct c.
    + destruct (IH b W) as [IH1 IH2].
      destruct (loopOver snifferIteration b rest) as [out e]. cbn [snd] in *.
      split; [exact IH1|].
      intros H. destruct (IH2 H) as (ev' & Hin & Hev).
      exists ev'. split; [now right | exact Hev].
    + cbn [snd]. split; [intros H; discriminate H|].
      intros _. exists ev. split; [now left | now apply Hc].
Qed.

Lemma sniffer_never_crashes_witness :
  snd (snifferTask [mkEvent (Datagram emptyHeartbeatDatagram) false;
                    mkEvent (Datagram heartbeatDatagram) false])
  <> Crashed.
Proof.
  apply (sniffer_never_crashes _ (make 2048)).
  exact (proj1 (wf_make 2048)).
Defined.

(** ** The hex-dump loop *)

Lemma hexdump_min (a b : Z) : Hexdump.min a b = Z.min a b.
Proof.
  unfold Hexdump.min. destruct (a <? b) eqn:E.
  - apply Z.ltb_lt in E. lia.
  - apply Z.ltb_ge in E. lia.
Qed.

Lemma firstn_clip {A : Type} (k : nat) (l : list A) :
  firstn k l = firstn (Nat.min k (List.length l)) l.
Proof.
  rewrite <- (firstn_all l) at 1. now rewrite firstn_firstn.
Qed.

(** One iteration of the hex-dump loop on a received datagram: the slice
    expression never panics, and the line shows the number of bytes stored
    and the first [min(n, 32)] bytes of the datagram, nothing of what the
    buffer held before. *)
Lemma hexdump_iteration (buf : slice) (d : list byte) (done : bool) :
  wf_slice buf ->
  let n := Z.min (Z.of_nat (List.length d)) (len buf) in
  Hexdump.iteration buf (mkEvent (Datagram d) done)
  = Ret (fst (ReadFromUDP buf d),
         Some (n, firstn (Z.to_nat (Z.min n 32)) d),
         Continue).
Proof.
  intros (Hoff & Hlen & Harr) n.
  unfold Hexdump.iteration, ReadFromUDP, Hexdump.dump. cbn [ev_recv fst].
  fold n. unfold len, cap in *.
  assert (Hn : 0 <= n <= s_len buf) by (unfold n, len; lia).
  assert (Hnd : n <= Z.of_nat (List.length d)) by (unfold n; lia).
  rewrite hexdump_min.
  rewrite reslice_in by (unfold cap; cbn [s_cap]; lia). cbn [bind].
  unfold contents. cbn [s_arr s_off s_len].
  rewrite Z.add_0_r, Z.sub_0_r.
  rewrite skipn_app.
  assert (Hs : skipn (Z.to_nat (s_off buf))
                 (firstn (Z.to_nat (s_off buf)) (s_arr buf)) = [])
    by (apply skipn_all2; rewrite length_firstn; lia).
  rewrite Hs.
  rewrite length_firstn.
  replace (Z.to_nat (s_off buf)
           - Nat.min (Z.to_nat (s_off buf)) (List.length (s_arr buf)))%nat
    with 0%nat by lia.
  cbn [skipn app].
  rewrite firstn_app, firstn_firstn, length_firstn.
  replace (Z.to_nat (Z.min n 32)
           - Nat.min (Z.to_nat n) (List.length d))%nat with 0%nat by lia.
  cbn [firstn]. rewrite app_nil_r.
  replace (Nat.min (Z.to_nat (Z.min n 32)) (Z.to_nat n))
    with (Z.to_nat (Z.min n 32)) by lia.
  reflexivity.
Qed.

(** X15. The hex-dump loop on a sequence of received datagrams: it never
    crashes, and it prints for each datagram, in order, the number of bytes
    stored in the 2048-byte buffer and the first 32 bytes of the datagram,
    or all of them when there are fewer. *)
Theorem hexdump_lines (ds : list (list byte)) :
  forall buf : slice,
    wf_slice buf -> len buf = 2048 ->
    loopOver Hexdump.iteration buf
      (map (fun d => mkEvent (Datagram d) false) ds)
    = (map (fun d => (Z.min (Z.of_nat (List.length d)) 2048, firstn 32 d)) ds,
       Receiving).
Proof.
  induction ds as [| d rest IH]; intros buf Hwf Hlen; [reflexivity|].
  cbn [map loopOver].
  rewrite (hexdump_iteration buf d false Hwf). cbv zeta.
  destruct (ReadFromUDP_spec buf d Hwf) as (_ & (W & _) & L & _).
  rewrite (IH _ W) by congruence.
  rewrite Hlen. f_equal. f_equal. f_equal.
  rewrite (firstn_clip 32 d), (firstn_clip (Z.to_nat _) d).
  f_equal. lia.
Qed.

Lemma hexdump_lines_witness :
  Hexdump.task [mkEvent (Datagram emptyHeartbeatDatagram) false;
                mkEvent (Datagram positionDatagram) false]
  = ([(12, emptyHeartbeatDatagram); (40, firstn 32 positionDatagram)],
     Receiving).
Proof.
  exact (hexdump_lines [emptyHeartbeatDatagram; positionDatagram]
           (make 2048) (proj1 (wf_make 2048)) (proj2 (wf_make 2048))).
Defined.

(** ** Round trips through the decoders *)

Lemma u8_byte_of_Z (z : Z) : u8 (byte_of_Z z) = z mod 256.
Proof.
  unfold u8, byte_of_Z.
  pose proof (Z.mod_pos_bound z 256 eq_refl) as Hb.
  destruct (Byte.of_N (Z.to_N (z mod 256))) as [b |] eqn:E.
  - apply Byte.to_of_N in E. rewrite E. apply Z2N.id. lia.
  - apply Byte.of_N_None_iff in E. lia.
Qed.

Lemma le_uint32_encode (z : Z) :
  le_uint32 (byte_of_Z z) (byte_of_Z (Z.shiftr z 8))
            (byte_of_Z (Z.shiftr z 16)) (byte_of_Z (Z.shiftr z 24))
  = z mod 2 ^ 32.
Proof.
  unfold le_uint32. rewrite !u8_byte_of_Z, !Z.shiftr_div_pow2 by lia.
  change (2 ^ 8) with 256. change (2 ^ 16) with 65536.
  change (2 ^ 24) with 16777216. change (2 ^ 32) with 4294967296.
  Z.div_mod_to_equations. lia.
Qed.

Lemma le_int32_encode (z : Z) :
  - 2 ^ 31 <= z < 2 ^ 31 ->
  le_int32 (byte_of_Z z) (byte_of_Z (Z.shiftr z 8))
           (byte_of_Z (Z.shiftr z 16)) (byte_of_Z (Z.shiftr z 24))
  = z.
Proof.
  intros Hz. unfold le_int32. rewrite le_uint32_encode. cbv zeta.
  change (2 ^ 31) with 2147483648 in *. change (2 ^ 32) with 4294967296.
  destruct (z mod 4294967296 <? 2147483648) eqn:E;
    [apply Z.ltb_lt in E | apply Z.ltb_ge in E];
    Z.div_mod_to_equations; lia.
Qed.

(** X16. Every heartbeat comes back from the wire: a version-2 frame built for
    identifier 0 around the nine-byte payload of any 32-bit custom mode and
    any four field bytes, with any sender, ninth byte and trailer, is
    handled to the heartbeat record of exactly those fields, armed being
    bit 7 of the base mode. *)
Theorem heartbeat_roundtrip
    (incompat compat seq sys comp ty ap bm st ver crc0 crc1 : byte) (cm : Z) :
  0 <= cm < 2 ^ 32 ->
  let d := encodeFrame incompat compat seq sys comp 0
             (encodeHeartbeat cm ty ap bm st ver) crc0 crc1 in
  handleDatagram (of_list d) (Z.of_nat (List.length d))
  = Ret (Some (HEARTBEAT (mkHeartbeat ty ap bm cm st) (armed bm))).
Proof.
  intros Hcm d. subst d. unfold encodeHeartbeat.
  pose proof (le_uint32_encode cm) as Hle.
  rewrite Z.mod_small in Hle by exact Hcm. revert Hle.
  generalize (byte_of_Z cm) (byte_of_Z (Z.shiftr cm 8))
             (byte_of_Z (Z.shiftr cm 16)) (byte_of_Z (Z.shiftr cm 24)).
  intros c0 c1 c2 c3 Hle. unfold handleDatagram.
  match goal with
  | |- context [parseFrame (of_list ?D) ?n] =>
      assert (Hp : parseFrame (of_list D) n
                   = Ret (mkFrame 9 sys comp 0 (mkSlice D 10 9 11), true))
        by reflexivity;
      rewrite Hp; clear Hp
  end.
  cbn [bind].
  erewrite dispatch_heartbeat.
  2:{ apply tryHeartbeat_decodes.
      - unfold wf_slice. cbn. lia.
      - now left.
      - unfold len. cbn. lia. }
  rewrite <- Hle. reflexivity.
Qed.

Lemma heartbeat_roundtrip_witness :
  handleDatagram
    (of_list (encodeFrame x00 x00 x01 xff xbe 0
                (encodeHeartbeat 3735928559 x0d x0c x51 x03 x03) xaa xbb))
    21
  = Ret (Some (HEARTBEAT (mkHeartbeat x0d x0c x51 3735928559 x03) false)).
Proof.
  apply (heartbeat_roundtrip x00 x00 x01 xff xbe x0d x0c x51 x03 x03 xaa xbb
           3735928559).
  lia.
Defined.

(** X17. Every position comes back from the wire: a version-2 frame built for
    identifier 33 around the 28-byte payload of any three 32-bit signed
    integers is handled to the position record of those integers, latitude
    and longitude divided by 1e7 and altitude by 1000, whatever the time
    reference, the sender and the trailer are. *)
Theorem position_roundtrip
    (incompat compat seq sys comp crc0 crc1 : byte) (time lat lon alt : Z) :
  - 2 ^ 31 <= lat < 2 ^ 31 ->
  - 2 ^ 31 <= lon < 2 ^ 31 ->
  - 2 ^ 31 <= alt < 2 ^ 31 ->
  let d := encodeFrame incompat compat seq sys comp 33
             (encodeGlobalPosition time lat lon alt) crc0 crc1 in
  handleDatagram (of_list d) (Z.of_nat (List.length d))
  = Ret (Some (GLOBAL_POSITION_INT (degreesOfE7 lat) (degreesOfE7 lon)
                                   (metersOfMillimeters alt))).
Proof.
  intros Hlat Hlon Halt d. subst d. unfold encodeGlobalPosition, encode32.
  pose proof (le_int32_encode lat Hlat) as Ela.
  pose proof (le_int32_encode lon Hlon) as Elo.
  pose proof (le_int32_encode alt Halt) as Eal.
  revert Ela Elo Eal.
  generalize (byte_of_Z time) (byte_of_Z (Z.shiftr time 8))
             (byte_of_Z (Z.shiftr time 16)) (byte_of_Z (Z.shiftr time 24)).
  generalize (byte_of_Z lat) (byte_of_Z (Z.shiftr lat 8))
             (byte_of_Z (Z.shiftr lat 16)) (byte_of_Z (Z.shiftr lat 24)).
  generalize (byte_of_Z lon) (byte_of_Z (Z.shiftr lon 8))
             (byte_of_Z (Z.shiftr lon 16)) (byte_of_Z (Z.shiftr lon 24)).
  generalize (byte_of_Z alt) (byte_of_Z (Z.shiftr alt 8))
             (byte_of_Z (Z.shiftr alt 16)) (byte_of_Z (Z.shiftr alt 24)).
  intros a0 a1 a2 a3 o0 o1 o2 o3 l0 l1 l2 l3 t0 t1 t2 t3 Ela Elo Eal.
  unfold handleDatagram.
  match goal with
  | |- context [parseFrame (of_list ?D) ?n] =>
      assert (Hp : parseFrame (of_list D) n
                   = Ret (mkFrame 28 sys comp 33 (mkSlice D 10 28 30), true))
        by reflexivity;
      rewrite Hp; clear Hp
  end.
  cbn [bind]. unfold dispatch.
  rewrite tryHeartbeat_rejects
    by (cbn [MsgID Payload]; unfold len; cbn [s_len]; lia).
  cbn [bind].
  rewrite tryGlobalPosition_decodes.
  2:{ unfold wf_slice. cbn. lia. }
  2:{ reflexivity. }
  2:{ unfold len. cbn. lia. }
  cbn [bind]. rewrite <- Ela, <- Elo, <- Eal. reflexivity.
Qed.

Lemma position_roundtrip_witness :
  handleDatagram (of_list positionDatagram) 40
  = Ret (Some (GLOBAL_POSITION_INT 47.397742%float 8.545594%float
                                   (-5)%float)).
Proof.
  refine (position_roundtrip x00 x00 x00 x01 x01 x00 x00
            1000 473977420 85455940 (-5000) _ _ _); lia.
Defined.

(** ** More than one frame in a datagram *)

Lemma byte_at_app (d extra : list byte) (i : Z) :
  0 <= i < Z.of_nat (List.length d) ->
  byte_at (of_list (d ++ extra)) i = byte_at (of_list d) i.
Proof.
  intros Hi. rewrite !byte_at_of_list by lia. apply app_nth1. lia.
Qed.

(** X18. Whatever follows the first frame of a datagram is dropped: a datagram
    that [parseFrame] accepts is handled in the same way with any bytes
    appended to it, so a second frame in the same datagram is never
    decoded. *)
Theorem trailing_bytes_dropped (d extra : list byte) (f : frame) :
  parseFrame (of_list d) (Z.of_nat (List.length d)) = Ret (f, true) ->
  handleDatagram (of_list (d ++ extra)) (Z.of_nat (List.length (d ++ extra)))
  = handleDatagram (of_list d) (Z.of_nat (List.length d)).
Proof.
  intros Hp.
  destruct (parseFrame_inv _ _ f (datagram_of_list d) Hp)
    as (Hn & Hm & Htot & Hf).
  unfold handleDatagram at 2. rewrite Hp. cbn [bind].
  unfold handleDatagram.
  rewrite (parseFrame_refines _ _ (datagram_of_list (d ++ extra))).
  unfold decodeFrame_spec, declaredLength in *.
  pose proof (u8_range (byte_at (of_list d) 1)) as Hpl.
  rewrite !(byte_at_app d extra) by lia.
  rewrite length_app, Nat2Z.inj_add.
  replace (_ <? 10 + 2) with false by (symmetry; apply Z.ltb_ge; lia).
  rewrite Hm. cbn [Byte.eqb negb].
  replace (_ <? u8 (byte_at (of_list d) 1) + 10 + 2) with false
    by (symmetry; apply Z.ltb_ge; lia).
  cbn [forget_reason bind].
  rewrite Hf.
  apply dispatch_ext; cbn [Payload MsgID]; try reflexivity.
  - clear Hf. unfold wf_slice, of_list, cap in *.
    cbn [s_arr s_off s_len s_cap] in *. rewrite length_app. lia.
  - clear Hf. unfold wf_slice, of_list, cap in *.
    cbn [s_arr s_off s_len s_cap] in *. lia.
  - unfold len; cbn [s_len]. intros i Hi.
    unfold payloadByte; cbn [Payload].
    rewrite (byte_at_sub (of_list (d ++ extra))), (byte_at_sub (of_list d)).
    apply byte_at_app. lia.
Qed.

Lemma trailing_bytes_dropped_witness :
  handleDatagram (of_list (heartbeatDatagram ++ positionDatagram)) 61
  = Ret (Some (HEARTBEAT (mkHeartbeat x02 x03 x80 0x01020304 x04) true)).
Proof.
  pose proof (trailing_bytes_dropped heartbeatDatagram positionDatagram
                (frameOf heartbeatDatagram) eq_refl) as H.
  etransitivity; [exact H | reflexivity].
Defined.

(** X19. The hex-dump loop without a cancellation signal never ends by itself,
    whatever it receives: it neither returns nor crashes, and it prints one
    line for each datagram received. *)
Theorem plain_hexdump_never_ends (evs : list event) :
  forall buf : slice,
    wf_slice buf ->
    snd (loopOver Hexdump.plainIteration buf evs) = Receiving /\
    List.length (fst (loopOver Hexdump.plainIteration buf evs))
    = List.length (filter (fun ev => match ev_recv ev with
                                     | Datagram _ => true
                                     | _ => false
                                     end) evs).
Proof.
  induction evs as [| ev rest IH]; intros buf Hwf; cbn [loopOver filter].
  - split; reflexivity.
  - unfold Hexdump.plainIteration at 1 3.
    destruct (ev_recv ev) as [d | |].
    + pose proof (hexdump_iteration buf d false Hwf) as Hit.
      unfold Hexdump.iteration in Hit. cbn [ev_recv] in Hit. cbv zeta in Hit.
      destruct (ReadFromUDP_spec buf d Hwf) as (_ & (W & _) & _).
      destruct (ReadFromUDP buf d) as [b n]. cbn [fst] in *.
      destruct (Hexdump.dump b n) as [line |]; cbn [bind] in *;
        [|discriminate Hit].
      destruct (IH b W) as [IH1 IH2].
      destruct (loopOver Hexdump.plainIteration b rest) as [out e].
      cbn [fst snd List.length] in *. split; congruence.
    + destruct (IH buf Hwf) as [IH1 IH2].
      destruct (loopOver Hexdump.plainIteration buf rest) as [out e].
      cbn [fst snd] in *. split; assumption.
    + destruct (IH buf Hwf) as [IH1 IH2].
      destruct (loopOver Hexdump.plainIteration buf rest) as [out e].
      cbn [fst snd] in *. split; assumption.
Qed.

Lemma plain_hexdump_never_ends_witness :
  snd (loopOver Hexdump.plainIteration (make 2048)
         [mkEvent Failure true; mkEvent (Datagram emptyHeartbeatDatagram) true;
          mkEvent Timeout true])
  = Receiving.
Proof.
  apply (plain_hexdump_never_ends _ (make 2048)).
  exact (proj1 (wf_make 2048)).
Defined.
